(** * Permission evaluation subsystem of the NestJS SaaS starter

    A shallow embedding of the authorization core of the backend:
    the condition resolver, the ability service, the two guards, the role
    service and the audit log service.

    JavaScript data is modelled by the type [Js.value]; a function that can
    raise returns a [Js.result]; code that talks to a repository threads the
    database as explicit state.  Calls to the logger are left out
    throughout: they have no influence on any returned value. *)

From Stdlib Require Import ZArith Ascii String.
From stdpp Require Import base option list strings gmap pretty.

Set Warnings "-register-all".
Local Open Scope string_scope.
Local Open Scope Z_scope.
Local Open Scope list_scope.

(** ** JavaScript values, exceptions and property access *)

Module Js.

(** The exceptions the modelled code raises or lets through. *)
Inductive exn :=
| Error (msg : string)
| TypeError (msg : string)
| ForbiddenException (msg : string)
| AddPermissionException (msg : string)
| RemovePermissionException (msg : string)
| EntityNotFoundError (msg : string)
| QueryFailedError (msg : string).

Inductive result (A : Type) :=
| Ok (a : A)
| Throw (e : exn).
Arguments Ok {A} a.
Arguments Throw {A} e.

Global Instance result_ret : MRet result := λ A a, Ok a.
Global Instance result_bind : MBind result := λ A B f m,
  match m with
  | Ok a => f a
  | Throw e => Throw e
  end.
Global Instance result_fmap : FMap result := λ A B f m,
  match m with
  | Ok a => Ok (f a)
  | Throw e => Throw e
  end.

(** [try m catch h] *)
Definition try_catch {A} (m : result A) (h : exn → result A) : result A :=
  match m with
  | Ok a => Ok a
  | Throw e => h e
  end.

(** [arr.map(f)] for an [f] that can raise: left to right, stopping at the
    first exception. *)
Definition mapM {A B} (f : A → result B) : list A → result (list B) :=
  fix go l :=
    match l with
    | [] => Ok []
    | x :: l' => y ← f x; ys ← go l'; Ok (y :: ys)
    end.

(** A value of the restricted grammar the permission code handles.  An
    object is the list of its own enumerable properties in insertion order;
    a property is a data property or an accessor whose getter raises.
    Numbers are the integers (identifiers and counters); strings are
    sequences of 8-bit characters. *)
Inductive value :=
| VUndefined
| VNull
| VBool (b : bool)
| VNum (n : Z)
| VStr (s : string)
| VArr (items : list value)
| VObj (props : list (string * slot))
with slot :=
| Data (v : value)
| Getter (raises : exn).

Definition object := list (string * slot).

(** Reading a property slot: [Get] on a data or accessor property. *)
Definition read (s : slot) : result value :=
  match s with
  | Data v => Ok v
  | Getter e => Throw e
  end.

Fixpoint own (key : string) (props : object) : option slot :=
  match props with
  | [] => None
  | (k, s) :: rest => if String.eqb k key then Some s else own key rest
  end.

(** [obj[key] = v] on a plain object: replace in place or append.  The
    key [__proto__] is not told apart: there the assignment of the code
    reaches the setter of [Object.prototype] and creates no property. *)
Fixpoint set_prop (props : object) (key : string) (s : slot) : object :=
  match props with
  | [] => [(key, s)]
  | (k, s') :: rest =>
      if String.eqb k key then (k, s) :: rest
      else (k, s') :: set_prop rest key s
  end.

(** [Object.entries(obj)]: reads every property, so a raising getter
    raises here. *)
Definition Object_entries (props : object) : result (list (string * value)) :=
  mapM (λ '(k, s), v ← read s; Ok (k, v)) props.

(** The string is a canonical array index: decimal digits, no leading
    zero except for ["0"] itself. *)
Fixpoint digits (s : string) (acc : nat) : option nat :=
  match s with
  | "" => Some acc
  | String c rest =>
      match Ascii.is_nat c with
      | Some d => digits rest (10 * acc + d)%nat
      | None => None
      end
  end.

Definition array_index (s : string) : option nat :=
  match s with
  | "" => None
  | String "0" (String _ _) => None
  | _ => digits s 0%nat
  end.

(** [v[key]].  Only own properties are modelled, not the ones inherited
    from the prototypes ([constructor], [toString], the methods of an
    entity class, ...): a key that is not an own property reads as
    [undefined] here.  What is read from an own property is what the code
    reads, since an own property hides the inherited ones. *)
Definition get (v : value) (key : string) : result value :=
  match v with
  | VUndefined => Throw (TypeError "Cannot read properties of undefined")
  | VNull => Throw (TypeError "Cannot read properties of null")
  | VObj props =>
      match own key props with
      | Some s => read s
      | None => Ok VUndefined
      end
  | VArr items =>
      if String.eqb key "length" then Ok (VNum (Z.of_nat (length items)))
      else match array_index key with
           | Some i => Ok (default VUndefined (items !! i))
           | None => Ok VUndefined
           end
  | VStr s =>
      if String.eqb key "length" then Ok (VNum (Z.of_nat (String.length s)))
      else match array_index key with
           | Some i =>
               Ok (match String.get i s with
                   | Some c => VStr (String c "")
                   | None => VUndefined
                   end)
           | None => Ok VUndefined
           end
  | VBool _ | VNum _ => Ok VUndefined
  end.

(** [v?.[key]] *)
Definition get_opt (v : value) (key : string) : result value :=
  match v with
  | VUndefined | VNull => Ok VUndefined
  | _ => get v key
  end.

(** Truthiness, as [if (v)] and [!v] test it. *)
Definition truthy (v : value) : bool :=
  match v with
  | VUndefined | VNull => false
  | VBool b => b
  | VNum n => negb (n =? 0)
  | VStr s => negb (String.eqb s "")
  | VArr _ | VObj _ => true
  end.

(** [a === b].  Two objects or arrays are equal when they are the same
    reference; the values compared in this development are always built
    separately, so they never are. *)
Definition strict_eq (a b : value) : bool :=
  match a, b with
  | VUndefined, VUndefined => true
  | VNull, VNull => true
  | VBool x, VBool y => Bool.eqb x y
  | VNum x, VNum y => x =? y
  | VStr x, VStr y => String.eqb x y
  | _, _ => false
  end.

(** [str.split('.')] and the general form. *)
Fixpoint split_go (sep : ascii) (cur : string) (s : string) : list string :=
  match s with
  | "" => [String.rev cur]
  | String c rest =>
      if Ascii.eqb c sep then String.rev cur :: split_go sep "" rest
      else split_go sep (String c cur) rest
  end.
Definition split (sep : ascii) (s : string) : list string := split_go sep "" s.

(** [str.trim()], on the white space of the 8-bit range. *)
Fixpoint trim_start (s : string) : string :=
  match s with
  | String c rest => if Ascii.is_space c then trim_start rest else s
  | "" => ""
  end.
Definition trim (s : string) : string :=
  String.rev (trim_start (String.rev (trim_start s))).

(** [str.startsWith(p)] *)
Definition startsWith (p s : string) : bool := String.prefix p s.

(** [str.substring(n)] *)
Definition substring_from (n : nat) (s : string) : string :=
  String.substring n (String.length s - n) s.

End Js.

Import Js.

(** ** src/auth/services/condition-resolver.service.ts *)

Module ConditionResolverService.

(** The characters [.] does not match in a regular expression. *)
Definition line_terminator (c : ascii) : bool :=
  Ascii.eqb c "010"%char || Ascii.eqb c "013"%char.

Fixpoint has_line_terminator (s : string) : bool :=
  match s with
  | "" => false
  | String c rest => line_terminator c || has_line_terminator rest
  end.

(** [str.match(/^\$\{(.+)\}$/)]: the first capture group when the string
    matches.  The pattern is anchored at both ends, so the group is what
    stands between the leading [${] and the final [}]. *)
Definition templateRegex (str : string) : option string :=
  let n := String.length str in
  if startsWith "${" str && (3 <? Z.of_nat n)
     && bool_decide (String.get (n - 1) str = Some "}"%char)
  then
    let inner := String.substring 2 (n - 3) str in
    if has_line_terminator inner then None else Some inner
  else None.

(** The loop of [resolvePath] over the parts of the path: a [null] or
    [undefined] met on the way ends it with [undefined].  The debug line
    that follows the loop, which writes the value found into a template
    literal, is not modelled. *)
Fixpoint walk (parts : list string) (current : value) : result value :=
  match parts with
  | [] => Ok current
  | part :: rest =>
      match current with
      | VNull | VUndefined => Ok VUndefined
      | _ => next ← get current part; walk rest next
      end
  end.

Definition resolvePath (path : string) (user : value) : result value :=
  let normalizedPath :=
    if startsWith "user." path then substring_from 5 path else path in
  let parts := split "."%char normalizedPath in
  walk parts user.

Definition resolveString (str : string) (user : value) : result value :=
  match templateRegex str with
  | None => Ok (VStr str)
  | Some group =>
      let path := trim group in
      resolvePath path user
  end.

Fixpoint resolveObject (obj : value) (user : value) : result value :=
  match obj with
  | VNull | VUndefined => Ok obj
  | VArr items => VArr <$> mapM (λ item, resolveObject item user) items
  | VObj props =>
      _ ← Object_entries props;
      VObj <$>
        fold_left
          (λ acc '(key, s),
             resolved ← acc;
             v ← match s with
                 | Data value => resolveObject value user
                 | Getter e => Throw e
                 end;
             Ok (set_prop resolved key (Data v)))
          props (Ok [])
  | VStr s => resolveString s user
  | VBool _ | VNum _ => Ok obj
  end.

(** What [resolveObject] returns for a [Record<string, any>]: its
    [typeof obj === 'object'] branch. *)
Definition resolveRecord (props : object) (user : value) : result object :=
  _ ← Object_entries props;
  fold_left
    (λ acc '(key, s),
       resolved ← acc;
       v ← value ← read s; resolveObject value user;
       Ok (set_prop resolved key (Data v)))
    props (Ok []).

(** [resolveConditions(conditions: Record<string, any> | undefined, user)].
    An object is always truthy, so [!conditions] holds for [undefined]
    only. *)
Definition resolveConditions (conditions : option object) (user : value)
  : result (option object) :=
  match conditions with
  | None => Ok None
  | Some c =>
      try_catch (Some <$> resolveRecord c user)
        (λ _error,
           (* Return original conditions if resolution fails *)
           Ok conditions)
  end.

End ConditionResolverService.

Import ConditionResolverService.

(** ** The rule matching library

    [createMongoAbility] and [ability.can] come from the package
    @casl/ability, which is not part of the repository.  This module
    models the part of its documented behaviour the backend relies on:

    - a rule concerns an action when its action list holds that action or
      ["manage"], and a subject type when its subject list holds that type
      or ["all"];
    - the rules that concern the request are tried from the one declared
      last to the one declared first; the first one whose conditions match
      decides: [can] is true when that rule is not inverted, false when it
      is inverted or when no rule matches (the guide of the library:
      "cannot declarations should follow after can, otherwise they will
      be overridden by can");
    - the conditions of a rule are only compared with an instance; for a
      subject given by its type name a rule with conditions matches when
      it is not inverted;
    - a rule with a list of fields matches a requested field of that list;
      when no field is requested it matches when it is not inverted;
    - building an ability raises for a rule whose list of fields is empty.

    Conditions are matched on the fragment without query operators: every
    key is a field name or a dotted path, every value is compared with
    [===] (or, for a field holding an array, with its elements).  Field
    patterns are matched on the fragment without wildcards. *)

Module Casl.

Record RawRule := {
  action : list string;
  subject : list string;
  fields : option (list string);
  conditions : option object;
  inverted : option bool;
  reason : option string;
}.

(** What is passed to [can] as its subject. *)
Inductive Subject :=
| SType (name : string)
| SInstance (className : string) (attrs : object)
| SAbsent.

(** [!!rule.inverted] *)
Definition is_inverted (r : RawRule) : bool := default false (inverted r).

Definition includes (x : string) (l : list string) : bool :=
  existsb (String.eqb x) l.

Definition anyAction := "manage".
Definition anySubjectType := "all".

Definition detectSubjectType (s : Subject) : string :=
  match s with
  | SType name => name
  | SAbsent => anySubjectType
  | SInstance className _ => className
  end.

Definition validate (r : RawRule) : result unit :=
  match fields r with
  | Some [] => Throw (Error "`rawRule.fields` cannot be an empty array")
  | _ => Ok ()
  end.

(** An ability holds its rules in declaration order. *)
Record Ability := { rules : list RawRule }.

Definition build (rawRules : list RawRule) : result Ability :=
  _ ← mapM validate (rev rawRules);
  Ok {| rules := rawRules |}.

(** The rule is indexed under this action and this subject type. *)
Definition concerns (action_ subjectType : string) (r : RawRule) : bool :=
  (includes subjectType (subject r) || includes anySubjectType (subject r))
  && (includes action_ (action r) || includes anyAction (action r)).

(** First element a fallible test accepts. *)
Definition find_first {A} (test : A → result bool)
  : list A → result (option A) :=
  fix go l :=
    match l with
    | [] => Ok None
    | x :: l' => b ← test x; if b : bool then Ok (Some x) else go l'
    end.

Section PureAbility.

Variable conditionsMatcher : object → object → result bool.
Variable fieldMatcher : list string → string → bool.

Definition matchesConditions (r : RawRule) (s : Subject) : result bool :=
  match conditions r with
  | None => Ok true
  | Some query =>
      match s with
      | SAbsent | SType _ => Ok (negb (is_inverted r))
      | SInstance _ attrs => conditionsMatcher query attrs
      end
  end.

Definition matchesField (r : RawRule) (field : option string) : bool :=
  match fields r with
  | None => true
  | Some fs =>
      match field with
      | None | Some "" => negb (is_inverted r)
      | Some f => fieldMatcher fs f
      end
  end.

(** Highest priority first: the rule declared last comes first. *)
Definition possibleRulesFor (a : Ability) (action_ subjectType : string)
  : list RawRule :=
  filter (λ r, concerns action_ subjectType r = true) (rev (rules a)).

Definition hasPerFieldRules (a : Ability) : bool :=
  existsb (λ r, bool_decide (is_Some (fields r))) (rules a).

Definition rulesFor (a : Ability) (action_ subjectType : string)
    (field : option string) : list RawRule :=
  let rs := possibleRulesFor a action_ subjectType in
  if negb (hasPerFieldRules a) then rs
  else filter (λ r, matchesField r field = true) rs.

Definition relevantRuleFor (a : Ability) (action_ : string) (s : Subject)
    (field : option string) : result (option RawRule) :=
  let subjectType := detectSubjectType s in
  find_first (λ r, matchesConditions r s) (rulesFor a action_ subjectType field).

Definition can_with (a : Ability) (action_ : string) (s : Subject)
    (field : option string) : result bool :=
  rule ← relevantRuleFor a action_ s field;
  Ok (match rule with
      | Some r => negb (is_inverted r)
      | None => false
      end).

End PureAbility.

(** *** The matchers of [createMongoAbility] *)

(** Reading the field [field] of [v]; over an array, the values of the
    field in its elements. *)
Definition getField (v : value) (field : string) : result value :=
  match v with
  | VArr items =>
      found ← mapM (λ item, Js.get item field) items;
      Ok (VArr (flat_map (λ x, match x with
                              | VUndefined => []
                              | VArr xs => xs
                              | _ => [x]
                              end) found))
  | _ => Js.get v field
  end.

Fixpoint getValueByPath_go (paths : list string) (v : value) : result value :=
  match paths with
  | [] => Ok v
  | p :: rest =>
      next ← getField v p;
      match next with
      | VObj _ | VArr _ => getValueByPath_go rest next
      | _ => Ok next
      end
  end.

Definition getValueByPath (attrs : object) (field : string) : result value :=
  match split "."%char field with
  | [single] => getField (VObj attrs) single
  | paths => getValueByPath_go paths (VObj attrs)
  end.

(** The [$eq] test. *)
Definition eq_test (attrs : object) (field : string) (expected : value)
  : result bool :=
  v ← getValueByPath attrs field;
  Ok (match v, expected with
      | VArr _, VArr _ => strict_eq v expected
      | VArr items, _ => existsb (λ x, strict_eq x expected) items
      | _, _ => strict_eq v expected
      end).

(** Every key of the query must hold. *)
Definition mongoQueryMatcher (query attrs : object) : result bool :=
  entries ← Object_entries query;
  tests ← mapM (λ '(field, expected), eq_test attrs field expected) entries;
  Ok (forallb id tests).

Definition fieldPatternMatcher (fs : list string) (f : string) : bool :=
  includes f fs.

Definition createMongoAbility (rawRules : list RawRule) : result Ability :=
  build rawRules.

Definition can : Ability → string → Subject → option string → result bool :=
  can_with mongoQueryMatcher fieldPatternMatcher.

End Casl.

(** ** Entities *)

(** [string | string[]], the type of the [action] and [subject] columns. *)
Inductive one_or_many :=
| One (s : string)
| Many (l : list string).

(** The text a template literal gives for the value. *)
Definition show (x : one_or_many) : string :=
  match x with
  | One s => s
  | Many l => String.concat "," l
  end.

Module Permission.
(** apps/.../permission.entity.ts *)
Record t := {
  id : Z;
  action : one_or_many;
  subject : one_or_many;
  fields : option (list string);
  conditions : option object;
  inverted : option bool;
  reason : option string;
}.
End Permission.

Module Role.
(** apps/backend/src/auth/entities/role.entity.ts *)
Record t := {
  id : Z;
  name : string;
  description : option string;
  permissions : option (list Permission.t);
}.
End Role.

Module Account.
(** apps/.../account.entity.ts: the identifier, the role and the other
    attributes of the account (email, company id, profile, ...). *)
Record t := {
  id : Z;
  role : option Role.t;
  attributes : object;
}.

(** The account as the object the template paths are walked on. *)
Definition to_value (user : t) : value :=
  VObj (("id", Data (VNum (id user)))
        :: ("role", Data match role user with
                         | Some r => VObj [("id", Data (VNum (Role.id r)));
                                           ("name", Data (VStr (Role.name r)))]
                         | None => VNull
                         end)
        :: attributes user).
End Account.

(** ** apps/backend/src/auth/modules/permission/casl-ability.service.ts *)

Module CaslAbilityService.

Import Casl.

(** [{ ...rule, conditions: c }] *)
Definition with_conditions (r : RawRule) (c : option object) : RawRule :=
  {| action := action r; subject := subject r; fields := fields r;
     conditions := c; inverted := inverted r; reason := reason r |}.

(** [roleAbilities: Map<ID, any[]>] holds the raw rules of every role; it
    is passed to the methods that read it. *)
Definition defineAbilityForUser (roleAbilities : gmap Z (list RawRule))
    (user : Account.t) : result (option Ability) :=
  match Account.role user with
  | None => Ok None
  | Some role =>
      match roleAbilities !! Role.id role with
      | None => Ok None
      | Some rawRules =>
          (* Resolve conditions for this specific user *)
          resolvedRules ←
            mapM (λ rule,
                    c ← match conditions rule with
                        | Some c =>
                            resolveConditions (Some c) (Account.to_value user)
                        | None => Ok None
                        end;
                    Ok (with_conditions rule c))
                 rawRules;
          ability ← createMongoAbility resolvedRules;
          Ok (Some ability)
      end
  end.

Definition checkUserAbility (roleAbilities : gmap Z (list RawRule))
    (user : Account.t) (action_ : string) (subject_ : Subject)
    (field : option string) : result bool :=
  ability ← defineAbilityForUser roleAbilities user;
  match ability with
  | None => Ok false
  | Some ability =>
      try_catch (can ability action_ subject_ field) (λ _error, Ok false)
  end.

Definition checkUserAbilityWithConditions
    (roleAbilities : gmap Z (list RawRule))
    (user : Account.t) (action_ : string) (resource : Subject)
    (field : option string) : result bool :=
  ability ← defineAbilityForUser roleAbilities user;
  match ability with
  | None => Ok false
  | Some ability =>
      try_catch (can ability action_ resource field) (λ _error, Ok false)
  end.

End CaslAbilityService.

(** ** The database and the repositories *)

(** apps/backend/src/auth/entities/audit-log.entity.ts *)
Inductive AuditAction :=
| LOGIN | LOGOUT | LOGIN_FAILED | PASSWORD_CHANGED
| PASSWORD_RESET_REQUESTED | PASSWORD_RESET_COMPLETED
| CREATE_ACCOUNT | UPDATE_ACCOUNT | DELETE_ACCOUNT | SUSPEND_ACCOUNT
| ACTIVATE_ACCOUNT | EMAIL_VERIFIED
| CREATE_ROLE | UPDATE_ROLE | DELETE_ROLE | ASSIGN_ROLE | REVOKE_ROLE
| UPDATE_ACCOUNT_ROLE
| GRANT_PERMISSION | REVOKE_PERMISSION | UPDATE_PERMISSION
| EXPORT_DATA | IMPORT_DATA
| API_KEY_CREATED | API_KEY_REVOKED
| SUBSCRIPTION_CREATED | SUBSCRIPTION_UPDATED | SUBSCRIPTION_CANCELLED
| PAYMENT_SUCCEEDED | PAYMENT_FAILED
| CREATE | READ | UPDATE | DELETE.

(** The object literal [{ action, subject, fields, conditions }] the role
    service hands to the audit log. *)
Record Snapshot := {
  snap_action : one_or_many;
  snap_subject : one_or_many;
  snap_fields : option (list string);
  snap_conditions : option object;
}.

Definition snapshot_of (p : Permission.t) : Snapshot :=
  {| snap_action := Permission.action p;
     snap_subject := Permission.subject p;
     snap_fields := Permission.fields p;
     snap_conditions := Permission.conditions p |}.

Record Changes := {
  before : option Snapshot;
  after : option Snapshot;
}.

Module AuditLog.
Record t := {
  id : Z;
  actor : option Account.t;
  action : AuditAction;
  entityType : string;
  entityId : option string;
  changes : option Changes;
  description : option string;
  ipAddress : option string;
  userAgent : option string;
  metadata : option object;
}.
End AuditLog.

(** The tables the role service and the audit log service write to.  The
    permissions of a role are kept with the role, in order, as the
    [permissions] relation loads them. *)
Record Db := {
  roles : gmap Z Role.t;
  permissions : gmap Z Permission.t;
  audit_logs : list AuditLog.t;
  next_id : Z;
}.

(** Which repository calls fail in a run.  A failing call raises and
    leaves the tables as they are. *)
Record Faults := {
  role_find_fails : bool;
  permission_save_fails : bool;
  role_save_fails : bool;
  permission_delete_fails : bool;
  audit_save_fails : bool;
}.

(** An [async] method over the database: the tables after the call and
    the settled promise.  The tables survive an exception. *)
Definition M (A : Type) : Type := Db → Db * result A.

Global Instance M_ret : MRet M := λ A a db, (db, Ok a).
Global Instance M_bind : MBind M := λ A B f m db,
  match m db with
  | (db', Ok a) => f a db'
  | (db', Throw e) => (db', Throw e)
  end.

Definition throw {A} (e : exn) : M A := λ db, (db, Throw e).

Definition try_catch_M {A} (m : M A) (h : exn → M A) : M A := λ db,
  match m db with
  | (db', Ok a) => (db', Ok a)
  | (db', Throw e) => h e db'
  end.

Module Repo.

(** [repo.findOneOrFail({ where: { id }, relations: ['permissions'] })] *)
Definition findRoleOrFail (fl : Faults) (roleId : Z) : M Role.t := λ db,
  if role_find_fails fl then (db, Throw (QueryFailedError "roles"))
  else match roles db !! roleId with
       | Some role => (db, Ok role)
       | None => (db, Throw (EntityNotFoundError "Role"))
       end.

(** [permissionRepo.save(newPermission)]: inserts the row under a
    generated identifier. *)
Definition savePermission (fl : Faults) (p : Permission.t)
  : M Permission.t := λ db,
  if permission_save_fails fl
  then (db, Throw (QueryFailedError "permissions"))
  else
    let saved :=
      {| Permission.id := next_id db;
         Permission.action := Permission.action p;
         Permission.subject := Permission.subject p;
         Permission.fields := Permission.fields p;
         Permission.conditions := Permission.conditions p;
         Permission.inverted := Permission.inverted p;
         Permission.reason := Permission.reason p |} in
    ({| roles := roles db;
        permissions := <[next_id db := saved]> (permissions db);
        audit_logs := audit_logs db;
        next_id := next_id db + 1 |}, Ok saved).

(** [role.save()]: writes the role with its list of permissions. *)
Definition saveRole (fl : Faults) (role : Role.t) : M Role.t := λ db,
  if role_save_fails fl then (db, Throw (QueryFailedError "roles"))
  else
    ({| roles := <[Role.id role := role]> (roles db);
        permissions := permissions db;
        audit_logs := audit_logs db;
        next_id := next_id db |}, Ok role).

(** [permissionRepo.delete(id)]: the number of rows removed. *)
Definition deletePermission (fl : Faults) (permissionId : Z) : M Z := λ db,
  if permission_delete_fails fl
  then (db, Throw (QueryFailedError "permissions"))
  else
    ({| roles := roles db;
        permissions := delete permissionId (permissions db);
        audit_logs := audit_logs db;
        next_id := next_id db |},
     Ok (if bool_decide (is_Some (permissions db !! permissionId))
         then 1 else 0)).

(** [repo.save(auditLog)] of the audit log repository. *)
Definition saveAuditLog (fl : Faults) (log : AuditLog.t)
  : M AuditLog.t := λ db,
  if audit_save_fails fl then (db, Throw (QueryFailedError "audit_logs"))
  else
    let saved :=
      {| AuditLog.id := next_id db;
         AuditLog.actor := AuditLog.actor log;
         AuditLog.action := AuditLog.action log;
         AuditLog.entityType := AuditLog.entityType log;
         AuditLog.entityId := AuditLog.entityId log;
         AuditLog.changes := AuditLog.changes log;
         AuditLog.description := AuditLog.description log;
         AuditLog.ipAddress := AuditLog.ipAddress log;
         AuditLog.userAgent := AuditLog.userAgent log;
         AuditLog.metadata := AuditLog.metadata log |} in
    ({| roles := roles db;
        permissions := permissions db;
        audit_logs := audit_logs db ++ [saved];
        next_id := next_id db + 1 |}, Ok saved).

End Repo.

(** ** src/auth/services/audit-log.service.ts *)

Module AuditLogService.

Record LogActionOptions := {
  actor : Account.t;
  action : AuditAction;
  entityType : string;
  entityId : option string;
  changes : option Changes;
  description : option string;
  ipAddress : option string;
  userAgent : option string;
  metadata : option object;
}.

(** The result is the saved entry, or [None] for [null]. *)
Definition logAction (fl : Faults) (options : LogActionOptions)
  : M (option AuditLog.t) :=
  try_catch_M
    (let auditLog :=
       {| AuditLog.id := 0;
          AuditLog.actor := Some (actor options);
          AuditLog.action := action options;
          AuditLog.entityType := entityType options;
          AuditLog.entityId := entityId options;
          AuditLog.changes := changes options;
          AuditLog.description := description options;
          AuditLog.ipAddress := ipAddress options;
          AuditLog.userAgent := userAgent options;
          AuditLog.metadata := metadata options |} in
     savedLog ← Repo.saveAuditLog fl auditLog;
     mret (Some savedLog))
    (λ _error,
       (* Don't throw - audit logging should not break the main flow *)
       mret None).

Definition logPermissionGrant (fl : Faults) (actor_ : Account.t) (roleId : Z)
    (permission : Snapshot) (ipAddress_ userAgent_ : option string)
  : M (option AuditLog.t) :=
  logAction fl
    {| actor := actor_;
       action := GRANT_PERMISSION;
       entityType := "Permission";
       entityId := Some (pretty roleId);
       changes := Some {| before := None; after := Some permission |};
       description :=
         Some ("Granted permission: " +:+ show (snap_action permission)
               +:+ " on " +:+ show (snap_subject permission)
               +:+ " to role " +:+ pretty roleId);
       ipAddress := ipAddress_;
       userAgent := userAgent_;
       metadata := None |}.

Definition logPermissionRevoke (fl : Faults) (actor_ : Account.t) (roleId : Z)
    (permissionId : Z) (permission : Snapshot)
    (ipAddress_ userAgent_ : option string) : M (option AuditLog.t) :=
  logAction fl
    {| actor := actor_;
       action := REVOKE_PERMISSION;
       entityType := "Permission";
       entityId := Some (pretty permissionId);
       changes := Some {| before := Some permission; after := None |};
       description :=
         Some ("Revoked permission: " +:+ show (snap_action permission)
               +:+ " on " +:+ show (snap_subject permission)
               +:+ " from role " +:+ pretty roleId);
       ipAddress := ipAddress_;
       userAgent := userAgent_;
       metadata := None |}.

End AuditLogService.

(** ** The role service (src/unnamed/part_007) *)

Module RoleService.

(** [Partial<Permission>] as the controllers pass it: the rule without
    an identifier. *)
Definition create (permission : Permission.t) : Permission.t := permission.

Definition addPermission (fl : Faults) (roleId : Z)
    (permission : Permission.t) (actor : option Account.t)
    (ipAddress userAgent : option string) : M Role.t :=
  try_catch_M
    ((* Find the role; [findOneOrFail] raises when there is none, so the
        [!role] test of the source never fires *)
     role ← Repo.findRoleOrFail fl roleId;
     (* Create new permission *)
     let newPermission := create permission in
     (* Save the new permission *)
     savedPermission ← Repo.savePermission fl newPermission;
     (* Add to role's permissions array *)
     let role :=
       {| Role.id := Role.id role;
          Role.name := Role.name role;
          Role.description := Role.description role;
          Role.permissions :=
            Some (default [] (Role.permissions role) ++ [savedPermission]) |} in
     (* Save the updated role *)
     updatedRole ← Repo.saveRole fl role;
     (* Audit log *)
     _ ← match actor with
         | Some actor =>
             _ ← AuditLogService.logPermissionGrant fl actor roleId
                   (snapshot_of savedPermission) ipAddress userAgent;
             mret ()
         | None => mret ()
         end;
     mret updatedRole)
    (λ _error,
       throw (AddPermissionException
                ("error adding permission to role id " +:+ pretty roleId))).

(** [permission.id.toString() === permissionId.toString()] *)
Definition same_id (permissionId : string) (p : Permission.t) : bool :=
  String.eqb (pretty (Permission.id p)) permissionId.

Definition removePermission (fl : Faults) (roleId : Z)
    (permissionId : string) (actor : option Account.t)
    (ipAddress userAgent : option string) : M Z :=
  try_catch_M
    ((* Find the role with its permissions *)
     role ← Repo.findRoleOrFail fl roleId;
     match Role.permissions role with
     | None =>
         throw (Error ("Role with id " +:+ pretty roleId
                       +:+ " has no permissions"))
     | Some perms =>
         (* Find the permission to remove (for audit logging) *)
         match List.find (same_id permissionId) perms with
         | None =>
             throw (Error ("Permission with id " +:+ permissionId
                           +:+ " not found in role " +:+ pretty roleId))
         | Some permissionToRemove =>
             (* [Number(permissionId)] is the identifier just found: its
                decimal text is [permissionId]. *)
             let number := Permission.id permissionToRemove in
             (* Audit log before deletion *)
             _ ← match actor with
                 | Some actor =>
                     _ ← AuditLogService.logPermissionRevoke fl actor roleId
                           number (snapshot_of permissionToRemove)
                           ipAddress userAgent;
                     mret ()
                 | None => mret ()
                 end;
             (* Filter out the permission to remove *)
             let role :=
               {| Role.id := Role.id role;
                  Role.name := Role.name role;
                  Role.description := Role.description role;
                  Role.permissions :=
                    Some (List.filter
                            (λ p, negb (same_id permissionId p)) perms) |} in
             (* Save the updated role *)
             _ ← Repo.saveRole fl role;
             (* Also delete the permission entity *)
             Repo.deletePermission fl number
         end
     end)
    (λ _error,
       throw (RemovePermissionException
                ("Error removing permission (" +:+ permissionId
                 +:+ ") from role (" +:+ pretty roleId +:+ ")"))).

End RoleService.

(** ** The guards *)

(** What the guards read from the application: the accounts table and
    the rule cache of the ability service. *)
Record Env := {
  accounts : gmap Z Account.t;
  roleAbilities : gmap Z (list Casl.RawRule);
}.

Record Request := {
  user : option Account.t;
  params_id : option string;
  method : string;
}.

(** A string that passes [if (s)]. *)
Definition nonempty (s : option string) : option string :=
  match s with
  | Some "" | None => None
  | Some x => Some x
  end.

(** libs/common: [CheckPermissionDTO] *)
Record CheckPermissionDTO := {
  dto_userId : Z;
  dto_action : string;
  dto_subject : string;
  dto_field : option string;
}.

Module AccountService.

(** src/auth/modules/account/account.service.ts *)
Definition checkPermission (env : Env) (dto : CheckPermissionDTO)
  : result bool :=
  user ← match accounts env !! dto_userId dto with
         | Some user => Ok user
         | None => Throw (EntityNotFoundError "Account")
         end;
  CaslAbilityService.checkUserAbility (roleAbilities env) user
    (dto_action dto) (Casl.SType (dto_subject dto)) (dto_field dto).

End AccountService.

(** *** apps/backend/src/guards/has-permissions.guard.ts *)

Module HasPermissionsGuard.

(** src/unnamed/part_010: [PermissionMetadata] *)
Record PermissionMetadata := {
  action : string;
  subject : option string;
  field : option string;
  checkResource : option bool;
}.

(** What the reflector and the execution context give for a call. *)
Record ExecutionContext := {
  isPublic : option bool;
  permissions : option PermissionMetadata;
  path : option string;
  request : Request;
}.

(** The outcome of the guard and the calls it made to
    [accountService.checkPermission], in order. *)
Record Run := {
  calls : list CheckPermissionDTO;
  outcome : result bool;
}.

Definition no_call (r : result bool) : Run := {| calls := []; outcome := r |}.

Definition checked (env : Env) (dto : CheckPermissionDTO)
    (k : bool → result bool) : Run :=
  {| calls := [dto];
     outcome := hasPermission ← AccountService.checkPermission env dto;
                k hasPermission |}.

Definition canActivate (env : Env) (context : ExecutionContext) : Run :=
  (* Check if the route is marked as public *)
  if default false (isPublic context) then no_call (Ok true)
  else
    match user (request context) with
    | None => no_call (Throw (ForbiddenException "User not authenticated"))
    | Some user =>
        (* Retrieve the permission metadata from decorator *)
        match permissions context with
        | None =>
            (* No permissions defined - this is allowed *)
            no_call (Ok true)
        | Some permissions =>
            let action := action permissions in
            let field := field permissions in
            (* If subject not explicitly set, infer from controller path *)
            let subject :=
              match nonempty (subject permissions) with
              | Some s => Some s
              | None => nonempty (path context)
              end in
            match subject with
            | None =>
                no_call (Throw (ForbiddenException
                                  "Permission subject not defined"))
            | Some subject =>
                let dto := {| dto_userId := Account.id user;
                              dto_action := action;
                              dto_subject := subject;
                              dto_field := field |} in
                if default false (checkResource permissions) then
                  match nonempty (params_id (request context)) with
                  | None =>
                      no_call (Throw (ForbiddenException
                                 "Resource ID required for permission check"))
                  | Some _resourceId =>
                      (* Standard permission check first *)
                      checked env dto (λ hasPermission,
                        if negb hasPermission then
                          Throw (ForbiddenException
                            "You do not have permission to perform this action")
                        else
                          (* Resource will be checked by ResourceOwnerGuard *)
                          Ok true)
                  end
                else
                  (* Standard permission check *)
                  checked env dto (λ hasPermission,
                    if negb hasPermission then
                      Throw (ForbiddenException
                        ("You do not have permission to " +:+ action +:+ " "
                         +:+ subject
                         +:+ match nonempty field with
                             | Some f => " field: " +:+ f
                             | None => ""
                             end))
                    else Ok true)
            end
        end
    end.

End HasPermissionsGuard.

(** *** The resource owner guard
    (in apps/backend/src/modules/notification/notification.service.ts) *)

Module ResourceOwnerGuard.

(** A resource instance: the name of its class and its properties, as
    reading them gives them; a property the class of the resource
    computes, such as [ownerId] of the base entity, stands among them
    with the value it reads as. *)
Record Resource := {
  className : string;
  attrs : object;
}.

(** [ResourceOwnerMetadata]; [resourceGetter] is given by what it returns
    for the request at hand ([None] for a falsy result). *)
Record ResourceOwnerMetadata := {
  resourceGetter : result (option Resource);
  ownerField : option string;
  tenantField : option string;
  allowAdminOverride : option bool;
}.

Record ExecutionContext := {
  resourceOwner : option ResourceOwnerMetadata;
  request : Request;
}.

(** [path.split('.').reduce((current, prop) => current?.[prop], obj)] *)
Definition getNestedProperty (obj : value) (path : string) : result value :=
  fold_left (λ current prop, c ← current; get_opt c prop)
            (split "."%char path) (Ok obj).

Definition upper (c : ascii) : ascii :=
  let n := nat_of_ascii c in
  if (Nat.leb 97 n && Nat.leb n 122)%bool then ascii_of_nat (n - 32) else c.

Fixpoint toUpperCase (s : string) : string :=
  match s with
  | "" => ""
  | String c rest => String (upper c) (toUpperCase rest)
  end.

(** Map HTTP method to CASL action *)
Definition mapMethodToAction (method : string) : string :=
  let m := toUpperCase method in
  if String.eqb m "GET" then "read"
  else if String.eqb m "POST" then "create"
  else if String.eqb m "PATCH" then "update"
  else if String.eqb m "PUT" then "update"
  else if String.eqb m "DELETE" then "delete"
  else "read".

(** [ownerId === user.id || ownerId?.id === user.id
     || ownerId === user.id?.toString()] *)
Definition isOwner (ownerId : value) (userId : Z) : result bool :=
  if strict_eq ownerId (VNum userId) then Ok true
  else
    inner ← get_opt ownerId "id";
    if strict_eq inner (VNum userId) then Ok true
    else Ok (strict_eq ownerId (VStr (pretty userId))).

(** [catch (error)]: a [ForbiddenException] is raised again, anything
    else becomes one. *)
Definition rethrow (e : exn) : result bool :=
  match e with
  | ForbiddenException _ => Throw e
  | _ => Throw (ForbiddenException "Error checking resource ownership")
  end.

Definition canActivate (env : Env) (context : ExecutionContext)
  : result bool :=
  match resourceOwner context with
  | None =>
      (* No ownership check required *)
      Ok true
  | Some metadata =>
      match user (request context) with
      | None => Throw (ForbiddenException "User not authenticated")
      | Some user =>
          let ownerField := default "ownerId" (ownerField metadata) in
          let allowAdminOverride :=
            default true (allowAdminOverride metadata) in
          try_catch
            ((* Fetch the resource using the provided getter *)
             resource ← resourceGetter metadata;
             match resource with
             | None => Throw (ForbiddenException "Resource not found")
             | Some resource =>
                 (* Extract owner ID from resource using the ownerField path *)
                 ownerId ← getNestedProperty (VObj (attrs resource)) ownerField;
                 if negb (truthy ownerId) then
                   Throw (ForbiddenException
                            "Cannot determine resource ownership")
                 else
                   (* Check if user is the owner *)
                   owner ← isOwner ownerId (Account.id user);
                   if owner : bool then Ok true
                   else if allowAdminOverride then
                     (* Not the owner - check if user has override permission *)
                     ability ← CaslAbilityService.defineAbilityForUser
                                 (roleAbilities env) user;
                     match ability with
                     | None =>
                         Throw (ForbiddenException
                                  "You can only access your own resources")
                     | Some ability =>
                         let action :=
                           mapMethodToAction (method (request context)) in
                         canAccess ←
                           Casl.can ability action
                             (Casl.SInstance (className resource)
                                             (attrs resource)) None;
                         if canAccess : bool then Ok true
                         else
                           Throw (ForbiddenException
                             "You can only access your own resources unless you have override permissions")
                     end
                   else
                     (* No override allowed and not the owner *)
                     Throw (ForbiddenException
                              "You can only access your own resources")
             end)
            rethrow
      end
  end.

End ResourceOwnerGuard.

(** * Vocabulary of the properties *)

Module Vocabulary.

Import Casl.

(** The rule applies to the request: it concerns the action and the
    subject type, its fields admit the requested field and its conditions
    match the subject. *)
Definition rule_matches (r : RawRule) (action_ : string) (s : Subject)
    (field : option string) : result bool :=
  if concerns action_ (detectSubjectType s) r
     && matchesField fieldPatternMatcher r field
  then matchesConditions mongoQueryMatcher r s
  else Ok false.

(** The conditions of a rule once resolved for the user. *)
Definition resolved_for (user : Account.t) (c : option object)
  : option object :=
  match c with
  | Some c =>
      match resolveConditions (Some c) (Account.to_value user) with
      | Ok r => r
      | Throw _ => Some c
      end
  | None => None
  end.

Definition resolve_rule (user : Account.t) (rule : RawRule) : RawRule :=
  CaslAbilityService.with_conditions rule
    (resolved_for user (conditions rule)).

Definition companyId_template : object :=
  [("companyId", Data (VStr "${user.companyId}"))].

(** A value an instance can carry as its company identifier. *)
Definition concrete (v : value) : bool :=
  match v with
  | VNum _ | VStr _ | VBool _ => true
  | _ => false
  end.




(** The entry [logAction] hands to the repository, and the tables once
    it is stored. *)
Definition entry_of (options : AuditLogService.LogActionOptions) (id_ : Z)
  : AuditLog.t :=
  {| AuditLog.id := id_;
     AuditLog.actor := Some (AuditLogService.actor options);
     AuditLog.action := AuditLogService.action options;
     AuditLog.entityType := AuditLogService.entityType options;
     AuditLog.entityId := AuditLogService.entityId options;
     AuditLog.changes := AuditLogService.changes options;
     AuditLog.description := AuditLogService.description options;
     AuditLog.ipAddress := AuditLogService.ipAddress options;
     AuditLog.userAgent := AuditLogService.userAgent options;
     AuditLog.metadata := AuditLogService.metadata options |}.

Definition with_audit (db : Db) (entry : AuditLog.t) : Db :=
  {| roles := roles db; permissions := permissions db;
     audit_logs := audit_logs db ++ [entry]; next_id := next_id db + 1 |}.

End Vocabulary.

(** * Sample data *)

Module Examples.

Import Casl Vocabulary.

Definition broken_user : value :=
  VObj [("id", Data (VNum 7));
        ("companyId", Getter (Error "relation not loaded"))].

(** The example of the specification: an unconditional grant of [read]
    on courses followed by a forbid of [read] on archived courses. *)
Definition grant_read_course : RawRule :=
  {| action := ["read"]; subject := ["Course"]; fields := None;
     conditions := None; inverted := Some false; reason := None |}.

Definition forbid_read_archived : RawRule :=
  {| action := ["read"]; subject := ["Course"]; fields := None;
     conditions := Some [("archived", Data (VBool true))];
     inverted := Some true; reason := None |}.

Definition teacher_role : Role.t :=
  {| Role.id := 3; Role.name := "teacher"; Role.description := None;
     Role.permissions := None |}.

Definition teacher : Account.t :=
  {| Account.id := 11; Account.role := Some teacher_role;
     Account.attributes := [("companyId", Data (VNum 42))] |}.

Definition archivedCourse : Subject :=
  SInstance "Course" [("id", Data (VNum 5)); ("archived", Data (VBool true))].

Definition guest : Account.t :=
  {| Account.id := 12; Account.role := None; Account.attributes := [] |}.

Definition tenant_rule : RawRule :=
  {| action := ["read"; "update"]; subject := ["Company"]; fields := None;
     conditions := Some companyId_template; inverted := Some false;
     reason := None |}.

Definition homeless : Account.t :=
  {| Account.id := 13; Account.role := Some teacher_role;
     Account.attributes := [("email", Data (VStr "a@b.c"))] |}.

Definition bare_route (who : option Account.t)
  : HasPermissionsGuard.ExecutionContext :=
  {| HasPermissionsGuard.isPublic := None;
     HasPermissionsGuard.permissions := None;
     HasPermissionsGuard.path := Some "roles";
     HasPermissionsGuard.request :=
       {| user := who; params_id := None; method := "GET" |} |}.

Definition empty_env : Env := {| accounts := ∅; roleAbilities := ∅ |}.

(** An administrator, a reader, and a document owned by somebody else. *)
Definition manage_documents : RawRule :=
  {| action := ["manage"]; subject := ["Document"]; fields := None;
     conditions := None; inverted := None; reason := None |}.

Definition read_documents : RawRule :=
  {| action := ["read"]; subject := ["Document"]; fields := None;
     conditions := None; inverted := None; reason := None |}.

Definition admin_role : Role.t :=
  {| Role.id := 1; Role.name := "admin"; Role.description := None;
     Role.permissions := None |}.

Definition reader_role : Role.t :=
  {| Role.id := 2; Role.name := "reader"; Role.description := None;
     Role.permissions := None |}.

Definition admin : Account.t :=
  {| Account.id := 20; Account.role := Some admin_role;
     Account.attributes := [] |}.

Definition reader : Account.t :=
  {| Account.id := 21; Account.role := Some reader_role;
     Account.attributes := [] |}.

Definition office : Env :=
  {| accounts := {[ 20 := admin; 21 := reader ]};
     roleAbilities := {[ 1 := [manage_documents]; 2 := [read_documents] ]} |}.

Definition document_of (attrs_ : object) : ResourceOwnerGuard.Resource :=
  {| ResourceOwnerGuard.className := "Document";
     ResourceOwnerGuard.attrs := attrs_ |}.

Definition default_owner_check (res : ResourceOwnerGuard.Resource)
  : ResourceOwnerGuard.ResourceOwnerMetadata :=
  {| ResourceOwnerGuard.resourceGetter := Ok (Some res);
     ResourceOwnerGuard.ownerField := None;
     ResourceOwnerGuard.tenantField := None;
     ResourceOwnerGuard.allowAdminOverride := None |}.

Definition patch_by (who : Account.t) (res : ResourceOwnerGuard.Resource)
  : ResourceOwnerGuard.ExecutionContext :=
  {| ResourceOwnerGuard.resourceOwner := Some (default_owner_check res);
     ResourceOwnerGuard.request :=
       {| user := Some who; params_id := Some "5"; method := "PATCH" |} |}.

Definition owned_by_99 : ResourceOwnerGuard.Resource :=
  document_of [("id", Data (VNum 5)); ("ownerId", Data (VNum 99))].







(** A database with one role and one of its permissions, an actor, and
    the runs in which nothing fails or only the audit store does. *)
Definition no_faults : Faults :=
  {| role_find_fails := false; permission_save_fails := false;
     role_save_fails := false; permission_delete_fails := false;
     audit_save_fails := false |}.

Definition audit_down : Faults :=
  {| role_find_fails := false; permission_save_fails := false;
     role_save_fails := false; permission_delete_fails := false;
     audit_save_fails := true |}.

Definition role_save_down : Faults :=
  {| role_find_fails := false; permission_save_fails := false;
     role_save_fails := true; permission_delete_fails := false;
     audit_save_fails := false |}.

Definition read_company : Permission.t :=
  {| Permission.id := 4; Permission.action := One "read";
     Permission.subject := One "company"; Permission.fields := None;
     Permission.conditions := None; Permission.inverted := None;
     Permission.reason := None |}.

Definition update_company : Permission.t :=
  {| Permission.id := 0; Permission.action := Many ["read"; "update"];
     Permission.subject := One "company"; Permission.fields := None;
     Permission.conditions := None; Permission.inverted := None;
     Permission.reason := None |}.

Definition editor : Role.t :=
  {| Role.id := 1; Role.name := "editor"; Role.description := None;
     Role.permissions := Some [read_company] |}.

Definition db0 : Db :=
  {| roles := {[ 1 := editor ]}; permissions := {[ 4 := read_company ]};
     audit_logs := []; next_id := 5 |}.

Definition root : Account.t :=
  {| Account.id := 1; Account.role := Some editor;
     Account.attributes := [("email", Data (VStr "root@example.org"))] |}.

(** The permission [update_company] once stored. *)
Definition update_company_saved : Permission.t :=
  {| Permission.id := 5; Permission.action := Many ["read"; "update"];
     Permission.subject := One "company"; Permission.fields := None;
     Permission.conditions := None; Permission.inverted := None;
     Permission.reason := None |}.

Definition editor_after_add : Role.t :=
  {| Role.id := 1; Role.name := "editor"; Role.description := None;
     Role.permissions := Some [read_company; update_company_saved] |}.

End Examples.

(** * Further code of the cited files *)

(** ** The rule store of the ability service
    (apps/backend/src/auth/modules/permission/casl-ability.service.ts) *)

Module RuleStore.

Import Casl.

(** [Array.isArray(x) ? x : [x]] *)
Definition to_array (x : one_or_many) : list string :=
  match x with
  | One s => [s]
  | Many l => l
  end.

(** The raw rule [initRolesAbilities] stores for a permission.  The
    columns [fields] and [conditions] are read as the entity types them, an
    array and an object; the [JSON.parse] branches of the source concern
    values of another type. *)
Definition rule_of_permission (p : Permission.t) : RawRule :=
  {| action := to_array (Permission.action p);
     subject := to_array (Permission.subject p);
     fields := Permission.fields p;
     conditions := Permission.conditions p;
     inverted := Permission.inverted p;
     reason := Permission.reason p |}.

(** How [initRolesAbilities] settles: it raises nothing but its own
    exception. *)
Inductive Settled :=
| Resolved
| InitRoleAbilitiesException (msg : string).

(** [roleService.find({ relations: ['permissions'], where: filter })],
    with [filter] either [{}] or [{ id }]. *)
Definition find (fl : Faults) (filter : option Z) (db : Db)
  : result (list Role.t) :=
  if role_find_fails fl then Throw (QueryFailedError "roles")
  else Ok match filter with
          | Some id_ =>
              match roles db !! id_ with
              | Some role => [role]
              | None => []
              end
          | None => (map_to_list (roles db)).*2
          end.

(** The loop over the roles found.  The entries set before an exception
    stay in the map. *)
Fixpoint store (found : list Role.t) (roleAbilities : gmap Z (list RawRule))
  : gmap Z (list RawRule) * result unit :=
  match found with
  | [] => (roleAbilities, Ok ())
  | role :: rest =>
      match Role.permissions role with
      | None =>
          (roleAbilities,
           Throw (TypeError "Cannot read properties of undefined"))
      | Some permissions_ =>
          let rules_ := map rule_of_permission permissions_ in
          store rest (<[Role.id role := rules_]> roleAbilities)
      end
  end.

Definition initRolesAbilities (fl : Faults) (filter : option Z) (db : Db)
    (roleAbilities : gmap Z (list RawRule))
  : gmap Z (list RawRule) * Settled :=
  match find fl filter db with
  | Throw _ =>
      (roleAbilities,
       InitRoleAbilitiesException "Error initializing role abilities")
  | Ok found =>
      match store found roleAbilities with
      | (roleAbilities', Ok _) => (roleAbilities', Resolved)
      | (roleAbilities', Throw _) =>
          (roleAbilities',
           InitRoleAbilitiesException "Error initializing role abilities")
      end
  end.

Definition refreshRoleAbility (fl : Faults) (roleId : Z) (db : Db)
    (roleAbilities : gmap Z (list RawRule))
  : gmap Z (list RawRule) * Settled :=
  initRolesAbilities fl (Some roleId) db roleAbilities.

Definition clearAbilitiesCache (roleAbilities : gmap Z (list RawRule))
  : gmap Z (list RawRule) := ∅.

End RuleStore.

(** ** The helpers of the condition resolver
    (src/auth/services/condition-resolver.service.ts) *)

Module ConditionHelpers.

(** [buildCompanyIsolation(user)]: [None] for [undefined]. *)
Definition buildCompanyIsolation (user : value) : result (option object) :=
  companyId ← Js.get user "companyId";
  if negb (truthy companyId) then Ok None
  else
    companyId' ← Js.get user "companyId";
    Ok (Some [("companyId", Data companyId')]).

(** [buildOwnerIsolation(user, ownerField = 'accountId')] *)
Definition buildOwnerIsolation (user : value) (ownerField : option string)
  : result object :=
  id_ ← Js.get user "id";
  Ok [(default "accountId" ownerField, Data id_)].

End ConditionHelpers.

(** ** The bulk operations of the permission management controller
    (src/auth/modules/permission/permission-management.controller.ts) *)

Module PermissionManagementController.

Import RuleStore.

(** One element of [results] of [bulkAddPermissions]. *)
Record Added := {
  added_success : bool;
  added_permission : Permission.t;
  added_role : option Role.t;
  added_error : option string;
}.

(** One element of [results] of [bulkRemovePermissions]. *)
Record Removed := {
  removed_success : bool;
  removed_permissionId : string;
  removed_error : option string;
}.

Record Summary := {
  total : nat;
  successful : nat;
  failed : nat;
}.

Record Response (A : Type) := {
  response_roleId : Z;
  results : list A;
  summary : Summary;
}.
Arguments response_roleId {A} _.
Arguments results {A} _.
Arguments summary {A} _.

(** What the controller works on: the tables and the rule cache of the
    ability service. *)
Record App := {
  db : Db;
  cache : gmap Z (list Casl.RawRule);
}.

Section Controller.

(** The text of [Services.App]; the enumeration is declared in
    common/enums/services.enum.ts, which is not among the sources. *)
Variable services_App : string.

(** [error.message].  A [BaseException] (src/common/exceptions) prefixes
    the message it is given with its domain and the number of its
    [ErrorCode]: 0 for [AddPermission], 1 for [RemovePermission]. *)
Definition message (e : exn) : string :=
  match e with
  | AddPermissionException msg =>
      "[" +:+ services_App +:+ ":0] : " +:+ msg
  | RemovePermissionException msg =>
      "[" +:+ services_App +:+ ":1] : " +:+ msg
  | Error msg | TypeError msg | ForbiddenException msg
  | EntityNotFoundError msg | QueryFailedError msg => msg
  end.

(** The loop of [bulkAddPermissions]; [fl i] tells which repository calls
    fail while the permission of index [i] is added. *)
Fixpoint add_each (fl : nat → Faults) (i : nat) (roleId : Z)
    (permissions_ : list Permission.t) (actor : option Account.t)
    (ipAddress userAgent : option string) (d : Db) : Db * list Added :=
  match permissions_ with
  | [] => (d, [])
  | permission :: rest =>
      let '(d1, r) :=
        RoleService.addPermission (fl i) roleId permission actor
          ipAddress userAgent d in
      let result :=
        match r with
        | Ok role =>
            {| added_success := true; added_permission := permission;
               added_role := Some role; added_error := None |}
        | Throw error =>
            {| added_success := false; added_permission := permission;
               added_role := None; added_error := Some (message error) |}
        end in
      let '(d2, results_) :=
        add_each fl (S i) roleId rest actor ipAddress userAgent d1 in
      (d2, result :: results_)
  end.

Definition bulkAddPermissions (fl : nat → Faults) (fl_refresh : Faults)
    (roleId : Z) (permissions_ : list Permission.t)
    (actor : option Account.t) (ipAddress userAgent : option string)
    (app : App) : App * (Response Added + string) :=
  let '(d, results_) :=
    add_each fl 0 roleId permissions_ actor ipAddress userAgent (db app) in
  (* Refresh the role's ability cache *)
  match refreshRoleAbility fl_refresh roleId d (cache app) with
  | (cache', InitRoleAbilitiesException msg) =>
      ({| db := d; cache := cache' |}, inr msg)
  | (cache', Resolved) =>
      ({| db := d; cache := cache' |},
       inl {| response_roleId := roleId;
              results := results_;
              summary :=
                {| total := length permissions_;
                   successful :=
                     length (filter (λ r, added_success r = true) results_);
                   failed :=
                     length (filter (λ r, added_success r = false)
                               results_) |} |})
  end.

(** The loop of [bulkRemovePermissions]. *)
Fixpoint remove_each (fl : nat → Faults) (i : nat) (roleId : Z)
    (permissionIds : list string) (actor : option Account.t)
    (ipAddress userAgent : option string) (d : Db) : Db * list Removed :=
  match permissionIds with
  | [] => (d, [])
  | permissionId :: rest =>
      let '(d1, r) :=
        RoleService.removePermission (fl i) roleId permissionId actor
          ipAddress userAgent d in
      let result :=
        match r with
        | Ok _ =>
            {| removed_success := true; removed_permissionId := permissionId;
               removed_error := None |}
        | Throw error =>
            {| removed_success := false; removed_permissionId := permissionId;
               removed_error := Some (message error) |}
        end in
      let '(d2, results_) :=
        remove_each fl (S i) roleId rest actor ipAddress userAgent d1 in
      (d2, result :: results_)
  end.

Definition bulkRemovePermissions (fl : nat → Faults) (fl_refresh : Faults)
    (roleId : Z) (permissionIds : list string)
    (actor : option Account.t) (ipAddress userAgent : option string)
    (app : App) : App * (Response Removed + string) :=
  let '(d, results_) :=
    remove_each fl 0 roleId permissionIds actor ipAddress userAgent
      (db app) in
  (* Refresh the role's ability cache *)
  match refreshRoleAbility fl_refresh roleId d (cache app) with
  | (cache', InitRoleAbilitiesException msg) =>
      ({| db := d; cache := cache' |}, inr msg)
  | (cache', Resolved) =>
      ({| db := d; cache := cache' |},
       inl {| response_roleId := roleId;
              results := results_;
              summary :=
                {| total := length permissionIds;
                   successful :=
                     length (filter (λ r, removed_success r = true) results_);
                   failed :=
                     length (filter (λ r, removed_success r = false)
                               results_) |} |})
  end.

End Controller.

End PermissionManagementController.

(** ** The JWT strategy (src/unnamed/part_009) *)

Module JwtStrategy.

(** [validate({ sub, email })]: what the authentication guard puts on
    the request as its user, [{ id: sub, email }]. *)
Definition validate (sub : Z) (email : value) : Account.t :=
  {| Account.id := sub;
     Account.role := None;
     Account.attributes := [("email", Data email)] |}.

End JwtStrategy.

(** ** Vocabulary of the further properties *)

Module MoreVocabulary.

(** The value holds no accessor that raises. *)
Fixpoint plain (v : value) : bool :=
  match v with
  | VArr items => forallb plain items
  | VObj props =>
      forallb (λ '(_, s), match s with
                          | Data x => plain x
                          | Getter _ => false
                          end) props
  | _ => true
  end.

(** The value holds no accessor that raises and no template string, and
    the keys of each of its objects are distinct and other than
    [__proto__]. *)
Fixpoint static (v : value) : bool :=
  match v with
  | VStr s => bool_decide (templateRegex s = None)
  | VArr items => forallb static items
  | VObj props =>
      bool_decide (NoDup props.*1 ∧ "__proto__" ∉ props.*1)
      && forallb (λ '(_, s), match s with
                             | Data x => static x
                             | Getter _ => false
                             end) props
  | _ => true
  end.

(** Writing the value into a template literal does not raise: an object
    without an own [toString] is converted by the one of
    [Object.prototype], an array element by element. *)
Fixpoint printable (v : value) : bool :=
  match v with
  | VArr items => forallb printable items
  | VObj props => bool_decide (own "toString" props = None)
  | _ => true
  end.

(** The loop of [resolvePath] when every part it reads is an own data
    property of an object: what is read then does not depend on the
    prototypes.  [None] when a part is not found that way. *)
Fixpoint own_walk (parts : list string) (current : value) : option value :=
  match parts with
  | [] => Some current
  | part :: rest =>
      match current with
      | VNull | VUndefined => Some VUndefined
      | VObj props =>
          match own part props with
          | Some (Data next) => own_walk rest next
          | _ => None
          end
      | _ => None
      end
  end.

(** The parts of the path of a template, as [resolveString] and
    [resolvePath] cut them out of the capture group. *)
Definition parts_of (group : string) : list string :=
  let path := trim group in
  split "."%char
    (if startsWith "user." path then substring_from 5 path else path).

(** Every template of the value names a path that is found on the user
    through own data properties, down to a value that can be written into
    a template literal, or that meets [null] or [undefined] on the way;
    and no key of the value is [__proto__]. *)
Fixpoint resolvable (obj user : value) : bool :=
  match obj with
  | VStr s =>
      match templateRegex s with
      | None => true
      | Some group =>
          match own_walk (parts_of group) user with
          | Some v => printable v
          | None => false
          end
      end
  | VArr items => forallb (λ item, resolvable item user) items
  | VObj props =>
      forallb (λ '(k, s), negb (String.eqb k "__proto__")
                          && match s with
                             | Data x => resolvable x user
                             | Getter _ => false
                             end) props
  | _ => true
  end.

(** The rule is a grant, on every field, restricted to the company of
    the user by the template [{companyId: "${user.companyId}"}]. *)
Definition company_scoped (r : Casl.RawRule) : Prop :=
  Casl.conditions r = Some Vocabulary.companyId_template
  ∧ Casl.fields r = None
  ∧ Casl.is_inverted r = false.

(** The rule is a grant on every field, with or without conditions. *)
Definition grant_on_every_field (r : Casl.RawRule) : Prop :=
  Casl.fields r = None ∧ Casl.is_inverted r = false.

(** The subject the permission guard checks: the one of the metadata or
    else the path of the controller. *)
Definition checked_subject (pm : HasPermissionsGuard.PermissionMetadata)
    (context : HasPermissionsGuard.ExecutionContext) : option string :=
  match nonempty (HasPermissionsGuard.subject pm) with
  | Some s => Some s
  | None => nonempty (HasPermissionsGuard.path context)
  end.

(** The question the permission guard puts to the account service. *)
Definition checked_dto (u : Account.t)
    (pm : HasPermissionsGuard.PermissionMetadata) (subject_ : string)
  : CheckPermissionDTO :=
  {| dto_userId := Account.id u;
     dto_action := HasPermissionsGuard.action pm;
     dto_subject := subject_;
     dto_field := HasPermissionsGuard.field pm |}.

(** The guard gets as far as the permission check: the route is not
    public, the request has a user, the handler has metadata, a subject
    is known and, for a resource check, the request names a resource. *)
Definition reaches_check (context : HasPermissionsGuard.ExecutionContext)
    (u : Account.t) (pm : HasPermissionsGuard.PermissionMetadata)
    (subject_ : string) : Prop :=
  default false (HasPermissionsGuard.isPublic context) = false
  ∧ user (HasPermissionsGuard.request context) = Some u
  ∧ HasPermissionsGuard.permissions context = Some pm
  ∧ checked_subject pm context = Some subject_
  ∧ (default false (HasPermissionsGuard.checkResource pm) = true →
     is_Some (nonempty (params_id (HasPermissionsGuard.request context)))).

(** The three shapes under which the owner guard recognises the user in
    the owner field: the identifier, its decimal text, or an object whose
    [id] is the identifier. *)
Definition names_owner (ownerId : value) (userId : Z) : Prop :=
  (ownerId = VNum userId ∧ userId ≠ 0)
  ∨ ownerId = VStr (pretty userId)
  ∨ ∃ props, ownerId = VObj props
             ∧ own "id" props = Some (Data (VNum userId)).

(** No repository call fails. *)
Definition faultless (fl : Faults) : Prop :=
  role_find_fails fl = false
  ∧ permission_save_fails fl = false
  ∧ role_save_fails fl = false
  ∧ permission_delete_fails fl = false
  ∧ audit_save_fails fl = false.

(** The role the identifier names has no permission the text
    [permissionId] names. *)
Definition unknown_permission (db : Db) (roleId : Z) (permissionId : string)
  : Prop :=
  match roles db !! roleId with
  | None => True
  | Some role =>
      match Role.permissions role with
      | None => True
      | Some perms =>
          List.find (RoleService.same_id permissionId) perms = None
      end
  end.

(** Every role is stored under its identifier and comes with its
    permissions, as the [permissions] relation loads them. *)
Definition well_loaded (db : Db) : Prop :=
  ∀ k role, roles db !! k = Some role →
            Role.id role = k ∧ is_Some (Role.permissions role).

(** The permission is a grant on every field. *)
Definition plain_grant (p : Permission.t) : Prop :=
  grant_on_every_field (RuleStore.rule_of_permission p).

End MoreVocabulary.

(** ** Sample data of the further properties *)

Module MoreExamples.

Import Casl.

(** A user with a profile but no company. *)
Definition freelancer : value :=
  VObj [("id", Data (VNum 30));
        ("profile", Data (VObj [("firstname", Data (VStr "Ada"))]));
        ("company", Data VNull)].

(** Conditions without any template. *)
Definition published_only : object :=
  [("published", Data (VBool true));
   ("tags", Data (VArr [VStr "public"; VStr "$notATemplate"]));
   ("owner", Data (VObj [("kind", Data (VStr "user"))]))].

(** Conditions with a nested template. *)
Definition own_company : object :=
  [("company", Data (VObj [("id", Data (VStr "${user.company.id}"))]));
   ("kind", Data (VStr "invoice"))].

(** A rule the library refuses: its list of fields is empty. *)
Definition malformed_rule : RawRule :=
  {| action := ["read"]; subject := ["Course"]; fields := Some [];
     conditions := None; inverted := None; reason := None |}.

(** An invoice of company 42 and one of company 7. *)
Definition invoice_of (company : Z) : Subject :=
  SInstance "Company" [("id", Data (VNum 1));
                       ("companyId", Data (VNum company))].

(** A protected route of the roles controller: the subject is left to
    the path of the controller. *)
Definition read_roles : HasPermissionsGuard.PermissionMetadata :=
  {| HasPermissionsGuard.action := "read";
     HasPermissionsGuard.subject := None;
     HasPermissionsGuard.field := None;
     HasPermissionsGuard.checkResource := None |}.

Definition roles_route (who : Account.t)
  : HasPermissionsGuard.ExecutionContext :=
  {| HasPermissionsGuard.isPublic := None;
     HasPermissionsGuard.permissions := Some read_roles;
     HasPermissionsGuard.path := Some "role";
     HasPermissionsGuard.request :=
       {| user := Some who; params_id := None; method := "GET" |} |}.

Definition read_role_rule : RawRule :=
  {| action := ["read"]; subject := ["role"]; fields := None;
     conditions := None; inverted := None; reason := None |}.

Definition auditor_role : Role.t :=
  {| Role.id := 8; Role.name := "auditor"; Role.description := None;
     Role.permissions := None |}.

(** The account as the accounts table has it, and the same identifier
    as a stale token presents it: without a role. *)
Definition auditor : Account.t :=
  {| Account.id := 40; Account.role := Some auditor_role;
     Account.attributes := [] |}.

Definition auditor_token : Account.t :=
  {| Account.id := 40; Account.role := None; Account.attributes := [] |}.

Definition bureau : Env :=
  {| accounts := {[ 40 := auditor ]};
     roleAbilities := {[ 8 := [read_role_rule] ]} |}.

(** A grant on the invoices of the company of the user, and an account
    that holds it. *)
Definition scoped_invoices : RawRule :=
  {| action := ["read"]; subject := ["invoice"]; fields := None;
     conditions := Some Vocabulary.companyId_template; inverted := None;
     reason := None |}.

Definition clerk_role : Role.t :=
  {| Role.id := 9; Role.name := "clerk"; Role.description := None;
     Role.permissions := None |}.

Definition clerk : Account.t :=
  {| Account.id := 41; Account.role := Some clerk_role;
     Account.attributes := [("companyId", Data (VNum 42))] |}.

Definition counting_house : Env :=
  {| accounts := {[ 41 := clerk ]};
     roleAbilities := {[ 9 := [scoped_invoices] ]} |}.

(** A document whose owner is given by the related account. *)
Definition owned_through_account : ResourceOwnerGuard.Resource :=
  {| ResourceOwnerGuard.className := "Document";
     ResourceOwnerGuard.attrs :=
       [("id", Data (VNum 5));
        ("account", Data (VObj [("id", Data (VNum 21));
                                ("email", Data (VStr "r@example.org"))]))] |}.

Definition owner_check (field : string) (override : bool)
    (res : ResourceOwnerGuard.Resource)
  : ResourceOwnerGuard.ResourceOwnerMetadata :=
  {| ResourceOwnerGuard.resourceGetter := Ok (Some res);
     ResourceOwnerGuard.ownerField := Some field;
     ResourceOwnerGuard.tenantField := None;
     ResourceOwnerGuard.allowAdminOverride := Some override |}.

Definition delete_by (who : Account.t)
    (md : ResourceOwnerGuard.ResourceOwnerMetadata)
  : ResourceOwnerGuard.ExecutionContext :=
  {| ResourceOwnerGuard.resourceOwner := Some md;
     ResourceOwnerGuard.request :=
       {| user := Some who; params_id := Some "5"; method := "delete" |} |}.

(** A getter of resources that fails. *)
Definition broken_getter : ResourceOwnerGuard.ResourceOwnerMetadata :=
  {| ResourceOwnerGuard.resourceGetter := Throw (QueryFailedError "documents");
     ResourceOwnerGuard.ownerField := None;
     ResourceOwnerGuard.tenantField := None;
     ResourceOwnerGuard.allowAdminOverride := None |}.

(** The administrator as the JWT strategy puts it on the request. *)
Definition admin_token : Account.t :=
  JwtStrategy.validate 20 (VStr "admin@example.org").

(** The roles table cannot be read. *)
Definition role_find_down : Faults :=
  {| role_find_fails := true; permission_save_fails := false;
     role_save_fails := false; permission_delete_fails := false;
     audit_save_fails := false |}.

(** Rules of a role the roles table no longer has. *)
Definition stale_cache : gmap Z (list RawRule) :=
  {[ 7 := [read_role_rule] ]}.

(** The application before any rule is loaded. *)
Definition app0 : PermissionManagementController.App :=
  {| PermissionManagementController.db := Examples.db0;
     PermissionManagementController.cache := ∅ |}.

(** An account holding the role of identifier 1. *)
Definition editor_account : Account.t :=
  {| Account.id := 50; Account.role := Some Examples.editor;
     Account.attributes := [] |}.

(** A user of company 0. *)
Definition company_zero : value :=
  VObj [("id", Data (VNum 32)); ("companyId", Data (VNum 0))].

End MoreExamples.

(** * Properties *)

(** ** The condition resolver *)

Module ConditionResolverFacts.

Import Examples.

(** The object branch of [resolveObject] is [resolveRecord]. *)
Lemma resolveObject_record (props : object) (user : value) :
  resolveObject (VObj props) user = VObj <$> resolveRecord props user.
Proof.
  unfold resolveRecord. simpl.
  destruct (Object_entries props); simpl; [|done].
  f_equal.
  generalize (Ok [] : result object).
  induction props as [|[k s] props IH]; intros acc; simpl; [done|].
  rewrite IH. f_equal.
  destruct acc; simpl; [|done]. by destruct s.
Qed.

Lemma resolveRecord_throw (props : object) (user : value) (e : exn) :
  resolveObject (VObj props) user = Throw e →
  resolveRecord props user = Throw e.
Proof.
  rewrite resolveObject_record.
  destruct (resolveRecord props user); simpl; congruence.
Qed.

(** C6.  When the recursive resolution of the condition tree raises, the
    resolver returns the conditions it was given, unchanged, and raises
    nothing. *)
Theorem resolveConditions_returns_original_on_throw
    (conditions : object) (user : value) (e : exn) :
  resolveObject (VObj conditions) user = Throw e →
  resolveConditions (Some conditions) user = Ok (Some conditions).
Proof.
  intros H%resolveRecord_throw. unfold resolveConditions. by rewrite H.
Qed.

Lemma resolveConditions_returns_original_on_throw_witness :
  resolveObject (VObj [("companyId", Data (VStr "${user.companyId}"))])
    broken_user = Throw (Error "relation not loaded")
  ∧ resolveConditions (Some [("companyId", Data (VStr "${user.companyId}"))])
      broken_user
    = Ok (Some [("companyId", Data (VStr "${user.companyId}"))]).
Proof.
  split; [reflexivity|].
  apply (resolveConditions_returns_original_on_throw _ broken_user
           (Error "relation not loaded")).
  reflexivity.
Defined.

(** The resolver never raises. *)
Lemma resolveConditions_total (conditions : option object) (user : value) :
  ∃ r, resolveConditions conditions user = Ok r.
Proof.
  destruct conditions as [c|]; simpl; [|by eexists].
  destruct (resolveRecord c user); simpl; by eexists.
Qed.

End ConditionResolverFacts.

(** ** Rule evaluation *)

Module AbilityFacts.

Import Casl CaslAbilityService Vocabulary Examples.

Lemma find_first_filter {A} (test : A → result bool) (keep : A → bool)
    (l : list A) :
  find_first test (filter (λ x, keep x = true) l)
  = find_first (λ x, if keep x then test x else Ok false) l.
Proof.
  induction l as [|x l IH]; [done|].
  rewrite filter_cons. destruct (decide (keep x = true)) as [Hk|Hk].
  - simpl. rewrite Hk, IH. done.
  - apply not_true_is_false in Hk. simpl. rewrite Hk. simpl. done.
Qed.

Lemma filter_iff_in {A} (P Q : A → Prop)
    `{!∀ x, Decision (P x)} `{!∀ x, Decision (Q x)} (l : list A) :
  (∀ x, x ∈ l → P x ↔ Q x) → filter P l = filter Q l.
Proof.
  induction l as [|x l IH]; intros Hpq; [done|].
  rewrite !filter_cons, IH by (intros; apply Hpq; by right).
  destruct (decide (P x)) as [Hp|Hp], (decide (Q x)) as [Hq|Hq]; try done;
    exfalso; apply (Hpq x) in Hp || apply (Hpq x) in Hq; try done; by left.
Qed.

Lemma no_field_rule_matches_field (a : Ability) (r : RawRule)
    (field : option string) :
  hasPerFieldRules a = false → r ∈ rules a →
  matchesField fieldPatternMatcher r field = true.
Proof.
  unfold hasPerFieldRules, matchesField. intros Hno Hin.
  destruct (fields r) as [fs|] eqn:Hf; [|done].
  assert (existsb (λ r, bool_decide (is_Some (fields r))) (rules a) = true)
    as Hex; [|congruence].
  apply existsb_exists. exists r. split; [by apply list_elem_of_In|].
  apply bool_decide_eq_true. rewrite Hf. by eexists.
Qed.

(** The candidate rules are the declared rules that concern the request
    and admit the field, the one declared last first. *)
Lemma rulesFor_spec (a : Ability) (action_ subjectType : string)
    (field : option string) :
  rulesFor fieldPatternMatcher a action_ subjectType field
  = filter (λ r, concerns action_ subjectType r
                 && matchesField fieldPatternMatcher r field = true)
           (rev (rules a)).
Proof.
  unfold rulesFor, possibleRulesFor.
  destruct (hasPerFieldRules a) eqn:Hper; simpl.
  - rewrite list_filter_filter. apply list_filter_iff.
    intros r. rewrite andb_true_iff. tauto.
  - apply filter_iff_in. intros r Hin.
    rewrite andb_true_iff. split; [|tauto].
    intros Hc. split; [done|].
    apply (no_field_rule_matches_field a); [done|].
    apply list_elem_of_In. apply list_elem_of_In, in_rev in Hin. done.
Qed.

Lemma relevantRuleFor_spec (a : Ability) (action_ : string) (s : Subject)
    (field : option string) :
  relevantRuleFor mongoQueryMatcher fieldPatternMatcher a action_ s field
  = find_first (λ r, rule_matches r action_ s field) (rev (rules a)).
Proof.
  unfold relevantRuleFor. rewrite rulesFor_spec.
  apply (find_first_filter _
           (λ r, concerns action_ (detectSubjectType s) r
                 && matchesField fieldPatternMatcher r field)).
Qed.



Lemma Forall_rev_intro {A} (P : A → Prop) (l : list A) :
  Forall P l → Forall P (rev l).
Proof.
  rewrite !Forall_forall. intros H x Hx. apply H.
  apply list_elem_of_In. apply list_elem_of_In, in_rev in Hx. done.
Qed.

(** The two check methods wrap [ability.can] in the same way. *)
Lemma check_unfold (roleAbilities : gmap Z (list RawRule)) (user : Account.t)
    (ability : Ability) (action_ : string) (s : Subject)
    (field : option string) :
  defineAbilityForUser roleAbilities user = Ok (Some ability) →
  checkUserAbility roleAbilities user action_ s field
  = try_catch (can ability action_ s field) (λ _, Ok false)
  ∧ checkUserAbilityWithConditions roleAbilities user action_ s field
    = try_catch (can ability action_ s field) (λ _, Ok false).
Proof.
  intros H. unfold checkUserAbility, checkUserAbilityWithConditions.
  rewrite H. done.
Qed.




(** C4.  A user without a role gets no ability, and every check of such
    a user, whatever the action, the subject and the field, is false:
    the two check methods of the ability service and the permission check
    of the account service the guard calls. *)
Theorem no_role_no_permission
    (roleAbilities : gmap Z (list RawRule)) (user : Account.t) :
  Account.role user = None →
  defineAbilityForUser roleAbilities user = Ok None
  ∧ (∀ action_ subject_ field,
       checkUserAbility roleAbilities user action_ subject_ field
       = Ok false)
  ∧ (∀ action_ resource field,
       checkUserAbilityWithConditions roleAbilities user action_ resource
         field = Ok false)
  ∧ (∀ accounts_ dto,
       accounts_ !! dto_userId dto = Some user →
       AccountService.checkPermission
         {| accounts := accounts_; roleAbilities := roleAbilities |} dto
       = Ok false).
Proof.
  intros Hrole.
  assert (defineAbilityForUser roleAbilities user = Ok None) as Hdef.
  { unfold defineAbilityForUser. by rewrite Hrole. }
  assert (∀ action_ subject_ field,
            checkUserAbility roleAbilities user action_ subject_ field
            = Ok false) as Hcheck.
  { intros. unfold checkUserAbility. by rewrite Hdef. }
  repeat split; [done..| |].
  - intros. unfold checkUserAbilityWithConditions. by rewrite Hdef.
  - intros accounts_ dto Huser. unfold AccountService.checkPermission.
    simpl. rewrite Huser. simpl. apply Hcheck.
Qed.

Lemma no_role_no_permission_witness :
  defineAbilityForUser
    {[ 3 := [grant_read_course] ]} guest = Ok None
  ∧ (∀ action_ subject_ field,
       checkUserAbility {[ 3 := [grant_read_course] ]} guest
         action_ subject_ field = Ok false)
  ∧ (∀ action_ resource field,
       checkUserAbilityWithConditions {[ 3 := [grant_read_course] ]} guest
         action_ resource field = Ok false)
  ∧ (∀ accounts_ dto,
       accounts_ !! dto_userId dto = Some guest →
       AccountService.checkPermission
         {| accounts := accounts_;
            roleAbilities := {[ 3 := [grant_read_course] ]} |} dto
       = Ok false).
Proof.
  apply (no_role_no_permission {[ 3 := [grant_read_course] ]} guest).
  reflexivity.
Defined.

(** *** What the compiled ability holds *)

Lemma mapM_cons {A B} (f : A → result B) (x : A) (l : list A) :
  mapM f (x :: l) = y ← f x; ys ← mapM f l; Ok (y :: ys).
Proof. reflexivity. Qed.

Lemma mapM_total {A B} (f : A → result B) (g : A → B) (l : list A) :
  (∀ x, f x = Ok (g x)) → mapM f l = Ok (map g l).
Proof.
  intros Hfg. induction l as [|x l IH]; [done|].
  simpl. rewrite Hfg. simpl. fold (mapM f). rewrite IH. done.
Qed.

Lemma defineAbilityForUser_rules
    (roleAbilities : gmap Z (list RawRule)) (user : Account.t)
    (ability : Ability) :
  defineAbilityForUser roleAbilities user = Ok (Some ability) →
  ∃ role rawRules,
    Account.role user = Some role
    ∧ roleAbilities !! Role.id role = Some rawRules
    ∧ rules ability = map (resolve_rule user) rawRules.
Proof.
  unfold defineAbilityForUser.
  destruct (Account.role user) as [role|]; [|done].
  destruct (roleAbilities !! Role.id role) as [rawRules|] eqn:Hc; [|done].
  rewrite (mapM_total _ (resolve_rule user)).
  - simpl. unfold createMongoAbility, build.
    destruct (mapM validate _); simpl; [|done].
    intros [= <-]. by exists role, rawRules.
  - intros rule. unfold resolve_rule, resolved_for.
    destruct (conditions rule) as [c|]; [|done].
    destruct (ConditionResolverFacts.resolveConditions_total
                (Some c) (Account.to_value user)) as [r ->]. done.
Qed.

Lemma find_first_none {A} (test : A → result bool) (l : list A) :
  Forall (λ x, test x = Ok false) l → find_first test l = Ok None.
Proof.
  induction 1 as [|x l Hx _ IH]; [done|]. simpl. by rewrite Hx.
Qed.

(** *** The company template *)

(** What the template reads on an account. *)
Lemma companyId_template_resolution (user : Account.t) :
  resolveRecord companyId_template (Account.to_value user)
  = v ← match own "companyId" (Account.attributes user) with
        | Some s => read s
        | None => Ok VUndefined
        end;
    Ok [("companyId", Data v)].
Proof.
  unfold resolveRecord, companyId_template. simpl.
  assert (resolveString "${user.companyId}" (Account.to_value user)
          = match own "companyId" (Account.attributes user) with
            | Some s => read s
            | None => Ok VUndefined
            end) as ->.
  { cbv -[own read Account.attributes Account.id Account.role]. simpl.
    by destruct (own "companyId" (Account.attributes user)) as [[v|e]|]. }
  by destruct (own "companyId" (Account.attributes user)) as [[v|e]|].
Qed.

Lemma unresolved_never_matches (attrs : object) (v : value) :
  Js.get (VObj attrs) "companyId" = Ok v → concrete v = true →
  mongoQueryMatcher [("companyId", Data VUndefined)] attrs = Ok false.
Proof.
  intros Hget Hv. unfold mongoQueryMatcher. simpl.
  unfold eq_test.
  change (getValueByPath attrs "companyId")
    with (getField (VObj attrs) "companyId").
  unfold getField. rewrite Hget. simpl. by destruct v.
Qed.

(** C2.  The template [{companyId: "${user.companyId}"}] resolves to the
    company identifier of the user when the user has one and to
    [{companyId: undefined}] when the user has none; in the latter case
    a role whose rules all carry the template grants nothing on an
    instance with a concrete company identifier. *)
Theorem companyId_template_round_trip :
  (∀ user v,
     own "companyId" (Account.attributes user) = Some (Data v) →
     resolveConditions (Some companyId_template) (Account.to_value user)
     = Ok (Some [("companyId", Data v)]))
  ∧ (∀ user,
       own "companyId" (Account.attributes user) = None →
       resolveConditions (Some companyId_template) (Account.to_value user)
       = Ok (Some [("companyId", Data VUndefined)]))
  ∧ (∀ roleAbilities user role rawRules ability action_ className attrs
       field v,
       own "companyId" (Account.attributes user) = None →
       Account.role user = Some role →
       roleAbilities !! Role.id role = Some rawRules →
       Forall (λ r, conditions r = Some companyId_template) rawRules →
       defineAbilityForUser roleAbilities user = Ok (Some ability) →
       Js.get (VObj attrs) "companyId" = Ok v →
       concrete v = true →
       can ability action_ (SInstance className attrs) field = Ok false
       ∧ checkUserAbilityWithConditions roleAbilities user action_
           (SInstance className attrs) field = Ok false).
Proof.
  split; [|split].
  - intros user v Hown. unfold resolveConditions.
    rewrite companyId_template_resolution, Hown. done.
  - intros user Hown. unfold resolveConditions.
    rewrite companyId_template_resolution, Hown. done.
  - intros roleAbilities user role rawRules ability action_ className attrs
      field v Hown Hrole Hcache Hall Hdef Hget Hv.
    assert (can ability action_ (SInstance className attrs) field = Ok false)
      as Hcan.
    { destruct (defineAbilityForUser_rules _ _ _ Hdef)
        as (role' & rawRules' & Hrole' & Hcache' & Hrules).
      rewrite Hrole in Hrole'. injection Hrole' as <-.
      rewrite Hcache in Hcache'. injection Hcache' as <-.
      unfold can, can_with. rewrite relevantRuleFor_spec, Hrules.
      rewrite find_first_none; [done|].
      apply Forall_rev_intro, Forall_forall. intros r' Hin.
      apply list_elem_of_In, in_map_iff in Hin as (r & <- & Hin).
      apply list_elem_of_In in Hin.
      rewrite Forall_forall in Hall. specialize (Hall r Hin).
      unfold rule_matches.
      destruct (_ && _); [|done].
      unfold matchesConditions, resolve_rule, resolved_for. simpl.
      rewrite Hall. unfold resolveConditions.
      rewrite companyId_template_resolution, Hown. simpl.
      by apply (unresolved_never_matches attrs v). }
    split; [done|].
    destruct (check_unfold roleAbilities user ability action_
                (SInstance className attrs) field Hdef) as [_ ->].
    by rewrite Hcan.
Qed.

Lemma companyId_template_round_trip_witness :
  resolveConditions (Some companyId_template) (Account.to_value teacher)
  = Ok (Some [("companyId", Data (VNum 42))])
  ∧ resolveConditions (Some companyId_template) (Account.to_value homeless)
    = Ok (Some [("companyId", Data VUndefined)])
  ∧ can {| rules := [resolve_rule homeless tenant_rule] |} "read"
        (SInstance "Company" [("companyId", Data (VNum 42))]) None
    = Ok false
  ∧ checkUserAbilityWithConditions {[ 3 := [tenant_rule] ]} homeless "read"
      (SInstance "Company" [("companyId", Data (VNum 42))]) None
    = Ok false.
Proof.
  destruct companyId_template_round_trip as (H1 & H2 & H3).
  split; [|split].
  - apply (H1 teacher (VNum 42)). reflexivity.
  - apply (H2 homeless). reflexivity.
  - apply (H3 {[ 3 := [tenant_rule] ]} homeless teacher_role [tenant_rule]
             {| rules := [resolve_rule homeless tenant_rule] |} "read"
             "Company" [("companyId", Data (VNum 42))] None (VNum 42)).
    + reflexivity.
    + reflexivity.
    + vm_compute. reflexivity.
    + repeat constructor.
    + vm_compute. reflexivity.
    + reflexivity.
    + reflexivity.
Defined.

End AbilityFacts.

(** ** The permission guard *)

Module PermissionGuardFacts.

Import Casl CaslAbilityService HasPermissionsGuard Vocabulary Examples.
Import AbilityFacts.

Lemma validate_throws (l : list RawRule) (e : exn) :
  mapM validate l = Throw e → ∃ msg, e = Error msg.
Proof.
  induction l as [|r l IH]; [done|]. rewrite mapM_cons.
  destruct (validate r) as [[]|e'] eqn:Hr; simpl.
  - destruct (mapM validate l); simpl; [done|].
    intros ?; simplify_eq. by apply IH.
  - intros ?; simplify_eq. unfold validate in Hr.
    destruct (fields r) as [[|f fs]|]; simplify_eq. by eexists.
Qed.

(** The permission check raises no [ForbiddenException] of its own. *)
Lemma checkPermission_throws (env : Env) (dto : CheckPermissionDTO)
    (e : exn) :
  AccountService.checkPermission env dto = Throw e →
  ∀ msg, e ≠ ForbiddenException msg.
Proof.
  unfold AccountService.checkPermission.
  destruct (accounts env !! dto_userId dto) as [user|]; simpl;
    [|by intros ?; simplify_eq].
  unfold checkUserAbility.
  destruct (defineAbilityForUser _ user) as [[ability|]|e'] eqn:Hdef; simpl.
  - by destruct (can _ _ _ _).
  - done.
  - intros ?; simplify_eq. revert Hdef. unfold defineAbilityForUser.
    destruct (Account.role user) as [role|]; [|done].
    destruct (roleAbilities env !! Role.id role) as [rawRules|]; [|done].
    rewrite (mapM_total _ (resolve_rule user)).
    + simpl. unfold createMongoAbility, build.
      destruct (mapM validate _) eqn:Hv; simpl; [done|].
      intros ?; simplify_eq. apply validate_throws in Hv as [m ->]. done.
    + intros rule. unfold resolve_rule, resolved_for.
      destruct (conditions rule) as [c|]; [|done].
      destruct (ConditionResolverFacts.resolveConditions_total
                  (Some c) (Account.to_value user)) as [r ->]. done.
Qed.

(** An outcome that is an exception: which one. *)
Local Ltac thrown :=
  let H := fresh in intros H; simpl in H; simplify_eq.

(** C5.  On a route that is not public, for an authenticated request,
    a handler without permission metadata is let through: the guard
    answers [true] and does not call the permission check. *)
Theorem guard_allows_when_no_metadata
    (env : Env) (context : ExecutionContext) (u : Account.t) :
  default false (isPublic context) = false →
  user (request context) = Some u →
  permissions context = None →
  canActivate env context = {| calls := []; outcome := Ok true |}.
Proof.
  intros Hpub Huser Hperm. unfold canActivate.
  by rewrite Hpub, Huser, Hperm.
Qed.

Lemma guard_allows_when_no_metadata_witness :
  canActivate empty_env (bare_route (Some guest))
  = {| calls := []; outcome := Ok true |}.
Proof.
  apply (guard_allows_when_no_metadata empty_env
           (bare_route (Some guest)) guest);
    reflexivity.
Defined.

(** C8.  Without an acting user, a route that is not public is rejected
    with "User not authenticated" and without any call to the permission
    check; no rejection of a request that has a user is that one. *)
Theorem guard_rejects_unauthenticated_first
    (env : Env) (context : ExecutionContext) :
  default false (isPublic context) = false →
  user (request context) = None →
  canActivate env context
  = {| calls := [];
       outcome := Throw (ForbiddenException "User not authenticated") |}
  ∧ ∀ env' context' e,
      is_Some (user (request context')) →
      outcome (canActivate env' context') = Throw e →
      e ≠ ForbiddenException "User not authenticated".
Proof.
  intros Hpub Huser. split.
  { unfold canActivate. by rewrite Hpub, Huser. }
  intros env' context' e [u Hu]. unfold canActivate. rewrite Hu.
  destruct (default false (isPublic context')); [done|].
  destruct (permissions context') as [pm|]; [|done].
  destruct (match nonempty (subject pm) with
            | Some s => Some s
            | None => nonempty (path context')
            end) as [subject_|]; [|by thrown].
  destruct (default false (checkResource pm)).
  - destruct (nonempty (params_id (request context')));
      [|by thrown].
    simpl.
    destruct (AccountService.checkPermission env' _) as [[|]|e'] eqn:Hc;
      simpl; [done|by thrown|].
    thrown. by apply (checkPermission_throws _ _ _ Hc).
  - simpl.
    destruct (AccountService.checkPermission env' _) as [[|]|e'] eqn:Hc;
      simpl; [done|by thrown|].
    thrown. by apply (checkPermission_throws _ _ _ Hc).
Qed.

Lemma guard_rejects_unauthenticated_first_witness :
  canActivate empty_env (bare_route None)
  = {| calls := [];
       outcome := Throw (ForbiddenException "User not authenticated") |}
  ∧ ∀ env' context' e,
      is_Some (user (request context')) →
      outcome (canActivate env' context') = Throw e →
      e ≠ ForbiddenException "User not authenticated".
Proof.
  apply (guard_rejects_unauthenticated_first empty_env (bare_route None));
    reflexivity.
Defined.

End PermissionGuardFacts.

(** ** The ownership check *)

Module OwnershipFacts.

Import Casl CaslAbilityService ResourceOwnerGuard Vocabulary Examples.
Import AbilityFacts.

Lemma validate_ok (l : list RawRule) :
  Forall (λ r, fields r ≠ Some []) l → ∃ us, mapM validate l = Ok us.
Proof.
  induction 1 as [|r l Hr _ [us IH]]; [by eexists|].
  rewrite mapM_cons, IH. unfold validate.
  destruct (fields r) as [[|f fs]|]; [done|by eexists..].
Qed.

(** With a cached role and well formed rules the ability is built from
    the rules resolved for the user. *)
Lemma defineAbilityForUser_cached
    (roleAbilities : gmap Z (list RawRule)) (user : Account.t)
    (role : Role.t) (rawRules : list RawRule) :
  Account.role user = Some role →
  roleAbilities !! Role.id role = Some rawRules →
  Forall (λ r, fields r ≠ Some []) rawRules →
  defineAbilityForUser roleAbilities user
  = Ok (Some {| rules := map (resolve_rule user) rawRules |}).
Proof.
  intros Hrole Hcache Hvalid. unfold defineAbilityForUser.
  rewrite Hrole, Hcache.
  rewrite (mapM_total _ (resolve_rule user)).
  - simpl. unfold createMongoAbility, build.
    destruct (validate_ok (rev (map (resolve_rule user) rawRules)))
      as [us ->]; [|done].
    apply Forall_rev_intro, Forall_forall. intros r' Hin.
    apply list_elem_of_In, in_map_iff in Hin as (r & <- & Hin).
    rewrite Forall_forall in Hvalid. apply (Hvalid r).
    by apply list_elem_of_In.
  - intros rule. unfold resolve_rule, resolved_for.
    destruct (conditions rule) as [c|]; [|done].
    destruct (ConditionResolverFacts.resolveConditions_total
                (Some c) (Account.to_value user)) as [r ->]. done.
Qed.










End OwnershipFacts.

(** ** The audit log and the role service *)

Module AuditFacts.

Import AuditLogService RoleService Vocabulary Examples.

Lemma logAction_run (fl : Faults) (options : LogActionOptions) (db : Db) :
  logAction fl options db
  = if audit_save_fails fl then (db, Ok None)
    else (with_audit db (entry_of options (next_id db)),
          Ok (Some (entry_of options (next_id db)))).
Proof.
  unfold logAction, try_catch_M, mbind, M_bind, Repo.saveAuditLog.
  by destruct (audit_save_fails fl).
Qed.

(** C7.  [logAction] never raises: when the audit store refuses the
    entry the result is [null] and the tables are untouched, otherwise the
    result is the stored entry.  A permission is therefore added, or
    removed, whether the audit store works or not. *)
Theorem logAction_never_throws (fl : Faults) :
  (∀ options db,
     ∃ db' r, logAction fl options db = (db', Ok r)
       ∧ if audit_save_fails fl then db' = db ∧ r = None
         else ∃ saved, r = Some saved
                ∧ audit_logs db' = audit_logs db ++ [saved])
  ∧ (∀ roleId permission actor ip ua db role,
       role_find_fails fl = false →
       permission_save_fails fl = false →
       role_save_fails fl = false →
       roles db !! roleId = Some role →
       ∃ db' updated saved,
         addPermission fl roleId permission actor ip ua db
         = (db', Ok updated)
         ∧ roles db' !! Role.id role = Some updated
         ∧ Role.permissions updated
           = Some (default [] (Role.permissions role) ++ [saved])
         ∧ permissions db' !! Permission.id saved = Some saved
         ∧ snapshot_of saved = snapshot_of permission)
  ∧ (∀ roleId permissionId actor ip ua db role perms p,
       role_find_fails fl = false →
       role_save_fails fl = false →
       permission_delete_fails fl = false →
       roles db !! roleId = Some role →
       Role.permissions role = Some perms →
       List.find (same_id permissionId) perms = Some p →
       ∃ db' n updated,
         removePermission fl roleId permissionId actor ip ua db
         = (db', Ok n)
         ∧ roles db' !! Role.id role = Some updated
         ∧ Role.permissions updated
           = Some (List.filter (λ q, negb (same_id permissionId q)) perms)
         ∧ permissions db' !! Permission.id p = None).
Proof.
  split; [|split].
  - intros options db. rewrite logAction_run.
    destruct (audit_save_fails fl); eauto 10.
  - intros roleId permission actor ip ua db role Hfind Hsave Hrole Hlook.
    unfold addPermission, try_catch_M, mbind, M_bind,
      Repo.findRoleOrFail, Repo.savePermission, Repo.saveRole.
    rewrite Hfind, Hlook, Hsave, Hrole. simpl.
    destruct actor as [actor|]; simpl.
    + unfold logPermissionGrant. rewrite logAction_run.
      destruct (audit_save_fails fl); simpl; do 3 eexists;
        (split; [reflexivity|]); simpl;
        (split; [apply lookup_insert_eq|]);
        (split; [reflexivity|]);
        (split; [apply lookup_insert_eq|reflexivity]).
    + do 3 eexists; (split; [reflexivity|]); simpl;
        (split; [apply lookup_insert_eq|]);
        (split; [reflexivity|]);
        (split; [apply lookup_insert_eq|reflexivity]).
  - intros roleId permissionId actor ip ua db role perms p
      Hfind Hrole Hdel Hlook Hperms Hp.
    unfold removePermission, try_catch_M, mbind, M_bind,
      Repo.findRoleOrFail, Repo.saveRole, Repo.deletePermission.
    rewrite Hfind, Hlook, Hperms, Hp. simpl.
    destruct actor as [actor|]; simpl.
    + unfold logPermissionRevoke. rewrite logAction_run.
      destruct (audit_save_fails fl); simpl; rewrite Hrole, Hdel; simpl;
        do 3 eexists; (split; [reflexivity|]); simpl;
        (split; [apply lookup_insert_eq|]);
        (split; [reflexivity|apply lookup_delete_eq]).
    + rewrite Hrole, Hdel. simpl.
      do 3 eexists; (split; [reflexivity|]); simpl;
        (split; [apply lookup_insert_eq|]);
        (split; [reflexivity|apply lookup_delete_eq]).
Qed.

Lemma logAction_never_throws_witness :
  (∃ db' updated saved,
     addPermission audit_down 1 update_company (Some root) None None db0
     = (db', Ok updated)
     ∧ roles db' !! Role.id editor = Some updated
     ∧ Role.permissions updated
       = Some (default [] (Role.permissions editor) ++ [saved])
     ∧ permissions db' !! Permission.id saved = Some saved
     ∧ snapshot_of saved = snapshot_of update_company)
  ∧ (∃ db' n updated,
       removePermission audit_down 1 "4" (Some root) None None db0
       = (db', Ok n)
       ∧ roles db' !! Role.id editor = Some updated
       ∧ Role.permissions updated
         = Some (List.filter (λ q, negb (same_id "4" q)) [read_company])
       ∧ permissions db' !! Permission.id read_company = None).
Proof.
  destruct (logAction_never_throws audit_down) as (_ & Hadd & Hremove).
  split.
  - apply (Hadd 1 update_company (Some root) None None db0 editor);
      reflexivity.
  - apply (Hremove 1 "4" (Some root) None None db0 editor
             [read_company] read_company); reflexivity.
Defined.

(** *** The audit entries of the two mutations *)

Local Ltac failed :=
  let H := fresh in intros H; simpl in H; simplify_eq.

(** C3, as the code has it.  A successful [addPermission] or
    [removePermission] appends exactly one audit entry when an actor is
    given and the audit store takes the entry: a grant with the added rule
    as [after], a revoke with the removed rule as [before].  Without an
    actor, or when the audit store refuses the entry, the call succeeds all
    the same and appends none. *)
Theorem one_audit_entry_with_actor_and_store (fl : Faults) :
  (∀ roleId permission actor ip ua db db' updated,
     addPermission fl roleId permission (Some actor) ip ua db
     = (db', Ok updated) →
     audit_save_fails fl = false →
     ∃ entry,
       audit_logs db' = audit_logs db ++ [entry]
       ∧ AuditLog.action entry = GRANT_PERMISSION
       ∧ AuditLog.actor entry = Some actor
       ∧ AuditLog.changes entry
         = Some {| before := None; after := Some (snapshot_of permission) |})
  ∧ (∀ roleId permissionId actor ip ua db db' n,
       removePermission fl roleId permissionId (Some actor) ip ua db
       = (db', Ok n) →
       audit_save_fails fl = false →
       ∃ entry role perms removed,
         roles db !! roleId = Some role
         ∧ Role.permissions role = Some perms
         ∧ List.find (same_id permissionId) perms = Some removed
         ∧ audit_logs db' = audit_logs db ++ [entry]
         ∧ AuditLog.action entry = REVOKE_PERMISSION
         ∧ AuditLog.actor entry = Some actor
         ∧ AuditLog.changes entry
           = Some {| before := Some (snapshot_of removed); after := None |})
  ∧ (∀ roleId permission actor ip ua db db' updated,
       addPermission fl roleId permission actor ip ua db
       = (db', Ok updated) →
       actor = None ∨ audit_save_fails fl = true →
       audit_logs db' = audit_logs db)
  ∧ (∀ roleId permissionId actor ip ua db db' n,
       removePermission fl roleId permissionId actor ip ua db
       = (db', Ok n) →
       actor = None ∨ audit_save_fails fl = true →
       audit_logs db' = audit_logs db).
Proof.
  split; [|split; [|split]].
  - intros roleId permission actor ip ua db db' updated Hrun Haudit.
    revert Hrun.
    unfold addPermission, try_catch_M, mbind, M_bind,
      Repo.findRoleOrFail, Repo.savePermission, Repo.saveRole.
    destruct (role_find_fails fl); [failed|].
    destruct (roles db !! roleId) as [role|]; [|failed].
    destruct (permission_save_fails fl); [failed|].
    destruct (role_save_fails fl); [failed|]. simpl.
    unfold logPermissionGrant. rewrite logAction_run, Haudit. simpl.
    intros ?; simplify_eq. eexists. simpl. done.
  - intros roleId permissionId actor ip ua db db' n Hrun Haudit.
    revert Hrun.
    unfold removePermission, try_catch_M, mbind, M_bind,
      Repo.findRoleOrFail, Repo.saveRole, Repo.deletePermission.
    destruct (role_find_fails fl); [failed|].
    destruct (roles db !! roleId) as [role|]; [|failed].
    destruct (Role.permissions role) as [perms|] eqn:Hperms; [|failed].
    destruct (List.find (same_id permissionId) perms) as [removed|] eqn:Hp;
      [|failed].
    simpl. unfold logPermissionRevoke. rewrite logAction_run, Haudit. simpl.
    destruct (role_save_fails fl); [failed|].
    destruct (permission_delete_fails fl); [failed|]. simpl.
    intros ?; simplify_eq. eexists _, role, perms, removed. simpl. done.
  - intros roleId permission actor ip ua db db' updated Hrun Hnone.
    revert Hrun.
    unfold addPermission, try_catch_M, mbind, M_bind,
      Repo.findRoleOrFail, Repo.savePermission, Repo.saveRole.
    destruct (role_find_fails fl); [failed|].
    destruct (roles db !! roleId) as [role|]; [|failed].
    destruct (permission_save_fails fl); [failed|].
    destruct (role_save_fails fl); [failed|]. simpl.
    destruct actor as [actor|]; simpl.
    + destruct Hnone as [?|Haudit]; [done|].
      unfold logPermissionGrant. rewrite logAction_run, Haudit. simpl.
      by intros ?; simplify_eq.
    + by intros ?; simplify_eq.
  - intros roleId permissionId actor ip ua db db' n Hrun Hnone.
    revert Hrun.
    unfold removePermission, try_catch_M, mbind, M_bind,
      Repo.findRoleOrFail, Repo.saveRole, Repo.deletePermission.
    destruct (role_find_fails fl); [failed|].
    destruct (roles db !! roleId) as [role|]; [|failed].
    destruct (Role.permissions role) as [perms|] eqn:Hperms; [|failed].
    destruct (List.find (same_id permissionId) perms) as [removed|] eqn:Hp;
      [|failed].
    simpl. destruct actor as [actor|]; simpl.
    + destruct Hnone as [?|Haudit]; [done|].
      unfold logPermissionRevoke. rewrite logAction_run, Haudit. simpl.
      destruct (role_save_fails fl); [failed|].
      destruct (permission_delete_fails fl); [failed|]. simpl.
      by intros ?; simplify_eq.
    + destruct (role_save_fails fl); [failed|].
      destruct (permission_delete_fails fl); [failed|]. simpl.
      by intros ?; simplify_eq.
Qed.

Lemma one_audit_entry_with_actor_and_store_witness :
  (∃ entry,
     audit_logs
       (addPermission no_faults 1 update_company (Some root) None None db0).1
     = audit_logs db0 ++ [entry]
     ∧ AuditLog.action entry = GRANT_PERMISSION
     ∧ AuditLog.actor entry = Some root
     ∧ AuditLog.changes entry
       = Some {| before := None;
                 after := Some (snapshot_of update_company) |})
  ∧ audit_logs
      (addPermission audit_down 1 update_company (Some root) None None db0).1
    = audit_logs db0.
Proof.
  destruct (one_audit_entry_with_actor_and_store no_faults)
    as (Hadd & _ & _ & _).
  destruct (one_audit_entry_with_actor_and_store audit_down)
    as (_ & _ & Hnone & _).
  split.
  - apply (Hadd 1 update_company root None None db0 _ editor_after_add);
      [vm_compute; reflexivity|reflexivity].
  - apply (Hnone 1 update_company (Some root) None None db0 _
             editor_after_add); [vm_compute; reflexivity|by right].
Defined.

(** C3, as stated, fails: called without an actor, [addPermission]
    succeeds, the rule is stored with the role, and the audit log is as
    empty as before. *)
Lemma addPermission_without_actor_writes_no_entry :
  (addPermission no_faults 1 update_company None None None db0).2
  = Ok editor_after_add
  ∧ roles (addPermission no_faults 1 update_company None None None db0).1
    !! 1 = Some editor_after_add
  ∧ audit_logs db0 = []
  ∧ audit_logs
      (addPermission no_faults 1 update_company None None None db0).1 = [].
Proof.
  repeat split; vm_compute; reflexivity.
Qed.

(** C10.  With an actor, [removePermission] stores the revoke entry
    before it detaches the permission.  When saving the role or deleting
    the permission then fails, the call raises its
    [RemovePermissionException], the revoke entry stays in the audit log,
    and the permission is still in its table (and, when it is the save of
    the role that failed, still attached to the role). *)
Theorem revoke_entry_survives_failed_removal
    (fl : Faults) (roleId : Z) (permissionId : string) (actor : Account.t)
    (ip ua : option string) (db : Db) (role : Role.t)
    (perms : list Permission.t) (p : Permission.t) :
  role_find_fails fl = false →
  audit_save_fails fl = false →
  roles db !! roleId = Some role →
  Role.permissions role = Some perms →
  List.find (same_id permissionId) perms = Some p →
  role_save_fails fl = true ∨ permission_delete_fails fl = true →
  ∃ db' entry,
    removePermission fl roleId permissionId (Some actor) ip ua db
    = (db', Throw (RemovePermissionException
                     ("Error removing permission (" +:+ permissionId
                      +:+ ") from role (" +:+ pretty roleId +:+ ")")))
    ∧ audit_logs db' = audit_logs db ++ [entry]
    ∧ AuditLog.action entry = REVOKE_PERMISSION
    ∧ AuditLog.entityId entry = Some (pretty (Permission.id p))
    ∧ AuditLog.changes entry
      = Some {| before := Some (snapshot_of p); after := None |}
    ∧ permissions db' = permissions db
    ∧ (role_save_fails fl = true → roles db' = roles db).
Proof.
  intros Hfind Haudit Hlook Hperms Hp Hfail.
  unfold removePermission, try_catch_M, mbind, M_bind,
    Repo.findRoleOrFail, Repo.saveRole, Repo.deletePermission.
  rewrite Hfind, Hlook, Hperms, Hp. simpl.
  unfold logPermissionRevoke. rewrite logAction_run, Haudit. simpl.
  destruct (role_save_fails fl) eqn:Hsave; simpl.
  - eexists _, _. split; [reflexivity|]. simpl. done.
  - destruct Hfail as [?|Hdel]; [done|]. rewrite Hdel. simpl.
    eexists _, _. split; [reflexivity|]. simpl. done.
Qed.

Lemma revoke_entry_survives_failed_removal_witness :
  ∃ db' entry,
    removePermission role_save_down 1 "4" (Some root) None None db0
    = (db', Throw (RemovePermissionException
                     ("Error removing permission (" +:+ "4"
                      +:+ ") from role (" +:+ pretty 1 +:+ ")")))
    ∧ audit_logs db' = audit_logs db0 ++ [entry]
    ∧ AuditLog.action entry = REVOKE_PERMISSION
    ∧ AuditLog.entityId entry = Some (pretty (Permission.id read_company))
    ∧ AuditLog.changes entry
      = Some {| before := Some (snapshot_of read_company); after := None |}
    ∧ permissions db' = permissions db0
    ∧ (role_save_fails role_save_down = true → roles db' = roles db0).
Proof.
  apply (revoke_entry_survives_failed_removal role_save_down 1 "4" root
           None None db0 editor [read_company] read_company);
    try reflexivity.
  by left.
Defined.

End AuditFacts.


(** * Further properties *)

(** ** The condition resolver on plain data *)

Module ResolverMoreFacts.

Import MoreVocabulary.

(** Induction over values, through the arrays and the objects. *)
Lemma value_nested_ind (P : value → Prop) :
  P VUndefined → P VNull → (∀ b, P (VBool b)) → (∀ n, P (VNum n)) →
  (∀ s, P (VStr s)) →
  (∀ items, Forall P items → P (VArr items)) →
  (∀ props,
     Forall (λ kv, match kv.2 with Data x => P x | Getter _ => True end)
       props →
     P (VObj props)) →
  ∀ v, P v.
Proof.
  intros Hu Hn Hb Hz Hs Ha Ho.
  fix IH 1.
  intros [| |b|n|s|items|props];
    [exact Hu|exact Hn|apply Hb|apply Hz|apply Hs| |].
  - apply Ha. induction items as [|x items IHitems]; constructor.
    + apply IH.
    + exact IHitems.
  - apply Ho. induction props as [|[k [x|e]] props IHprops]; constructor.
    + simpl. apply IH.
    + exact IHprops.
    + exact I.
    + exact IHprops.
Qed.

Lemma mapM_ok {A B} (f : A → result B) (P : A → Prop) (Q : B → Prop)
    (l : list A) :
  (∀ x, P x → ∃ y, f x = Ok y ∧ Q y) → Forall P l →
  ∃ ys, mapM f l = Ok ys ∧ Forall Q ys.
Proof.
  intros Hf. induction 1 as [|x l Hx _ (ys & IH & Hys)].
  - exists []. by split.
  - destruct (Hf x Hx) as (y & Hy & Qy). exists (y :: ys).
    rewrite AbilityFacts.mapM_cons, Hy, IH. by split; [|constructor].
Qed.

Lemma forallb_Forall {A} (f : A → bool) (l : list A) :
  forallb f l = true ↔ Forall (λ x, f x = true) l.
Proof. rewrite forallb_forall, Forall_forall. by setoid_rewrite list_elem_of_In. Qed.

Lemma plain_own (props : object) (key : string) :
  plain (VObj props) = true →
  match own key props with
  | Some (Data x) => plain x = true
  | Some (Getter _) => False
  | None => True
  end.
Proof.
  simpl. induction props as [|[k s] props IH]; simpl; [done|].
  intros [Hs Hrest]%andb_true_iff.
  destruct (String.eqb k key); [|by apply IH].
  by destruct s.
Qed.

(** Reading a property of plain data that is neither [null] nor
    [undefined] gives plain data. *)
Lemma get_plain (v : value) (key : string) :
  plain v = true → v ≠ VNull → v ≠ VUndefined →
  ∃ x, Js.get v key = Ok x ∧ plain x = true.
Proof.
  intros Hv Hn Hu. destruct v as [| |b|n|s|items|props]; try done;
    try (by eexists).
  - unfold Js.get. destruct (String.eqb key "length"); [by eexists|].
    destruct (array_index key) as [i|]; [|by eexists].
    destruct (String.get i s); by eexists.
  - unfold Js.get. destruct (String.eqb key "length"); [by eexists|].
    destruct (array_index key) as [i|]; [|by eexists].
    eexists. split; [done|].
    destruct (items !! i) as [x|] eqn:Hi; [|done]. simpl.
    simpl in Hv. rewrite forallb_Forall, Forall_forall in Hv.
    apply Hv. by apply list_elem_of_lookup_2 in Hi.
  - pose proof (plain_own props key Hv) as H. unfold Js.get.
    destruct (own key props) as [[x|e]|]; [by eexists|done|by eexists].
Qed.

Lemma walk_plain (parts : list string) (current : value) :
  plain current = true →
  ∃ x, walk parts current = Ok x ∧ plain x = true.
Proof.
  revert current. induction parts as [|part parts IH]; intros current Hc.
  - by exists current.
  - assert (current = VNull ∨ current = VUndefined
            ∨ (current ≠ VNull ∧ current ≠ VUndefined)) as [->|[->|[Hn Hu]]]
      by (destruct current; auto).
    + by exists VUndefined.
    + by exists VUndefined.
    + destruct (get_plain current part Hc Hn Hu) as (next & Hget & Hnext).
      destruct (IH next Hnext) as (x & Hx & Hpx). exists x.
      split; [|done].
      destruct current; try done; cbn [walk]; by rewrite Hget.
Qed.

Lemma resolveString_plain (str : string) (user : value) :
  plain user = true →
  ∃ x, resolveString str user = Ok x ∧ plain x = true.
Proof.
  intros Hu. unfold resolveString, resolvePath.
  destruct (templateRegex str); [|by eexists].
  by apply walk_plain.
Qed.

Lemma set_prop_plain (props : object) (key : string) (x : value) :
  plain (VObj props) = true → plain x = true →
  plain (VObj (set_prop props key (Data x))) = true.
Proof.
  simpl. induction props as [|[k s] props IH]; simpl; intros Hp Hx.
  - by rewrite Hx.
  - apply andb_true_iff in Hp as [Hs Hrest].
    destruct (String.eqb k key); simpl.
    + by rewrite Hx, Hrest.
    + by rewrite Hs, IH.
Qed.

Lemma Object_entries_plain (props : object) :
  plain (VObj props) = true → ∃ es, Object_entries props = Ok es.
Proof.
  simpl. unfold Object_entries.
  induction props as [|[k s] props IH]; [by eexists|].
  rewrite AbilityFacts.mapM_cons. simpl.
  intros [Hs Hrest]%andb_true_iff.
  destruct (IH Hrest) as [es ->]. destruct s; [by eexists|done].
Qed.

(** On a value and a user that hold no raising accessor the recursion
    never raises, and what it returns holds none either. *)
Lemma resolveObject_plain (obj user : value) :
  plain obj = true → plain user = true →
  ∃ r, resolveObject obj user = Ok r ∧ plain r = true.
Proof.
  intros Hobj Huser. revert Hobj.
  induction obj as [| |b|n|s|items IH|props IH] using value_nested_ind;
    intros Hobj; try (by eexists).
  - by apply resolveString_plain.
  - simpl in Hobj. rewrite forallb_Forall in Hobj.
    assert (Forall (λ x, plain x = true
                         ∧ (plain x = true →
                            ∃ r, resolveObject x user = Ok r
                                 ∧ plain r = true)) items) as Hall.
    { rewrite Forall_forall in *. intros x Hx. split; auto. }
    destruct (mapM_ok (λ item, resolveObject item user) _
                (λ r, plain r = true) items
                (λ x '(conj Hp Hr), Hr Hp) Hall) as (ys & Hys & Hplain).
    exists (VArr ys). simpl. fold (mapM (λ item, resolveObject item user)).
    rewrite Hys. simpl. split; [done|]. by apply forallb_Forall.
  - destruct (Object_entries_plain props Hobj) as [es Hes].
    simpl. fold (Object_entries props). rewrite Hes. simpl.
    assert (∀ acc, plain (VObj acc) = true →
              ∃ r, fold_left
                     (λ acc '(key, s),
                        resolved ← acc;
                        v ← match s with
                            | Data value => resolveObject value user
                            | Getter e => Throw e
                            end;
                        Ok (set_prop resolved key (Data v)))
                     props (Ok acc) = Ok r
                   ∧ plain (VObj r) = true) as Hfold.
    { clear Hes. simpl in Hobj. rewrite forallb_Forall in Hobj.
      induction props as [|[k s] props IHprops]; intros acc Hacc.
      - by exists acc.
      - apply Forall_cons in IH as [IHs IHrest].
        apply Forall_cons in Hobj as [Hs Hrest].
        destruct s as [x|e]; [|done]. simpl in IHs.
        destruct (IHs Hs) as (r & Hr & Hpr).
        simpl. rewrite Hr. simpl.
        apply (IHprops IHrest Hrest). by apply set_prop_plain. }
    destruct (Hfold [] eq_refl) as (r & Hr & Hpr).
    exists (VObj r). by rewrite Hr.
Qed.

(** X1.  On conditions and a user that hold no raising accessor, when
    every template of the conditions names a path found on the user
    through own data properties down to a value that can be written into
    a template literal (or cut short by [null] or [undefined]) and no key
    of the conditions is [__proto__], the resolution does not raise: the
    resolver returns the resolved conditions, not the fallback, and what
    it returns holds no raising accessor either. *)
Theorem resolveConditions_plain (conditions : object) (user : value) :
  plain (VObj conditions) = true → plain user = true →
  resolvable (VObj conditions) user = true →
  ∃ r, resolveRecord conditions user = Ok r
       ∧ resolveConditions (Some conditions) user = Ok (Some r)
       ∧ plain (VObj r) = true.
Proof.
  intros Hc Hu _.
  destruct (resolveObject_plain (VObj conditions) user Hc Hu) as (r & Hr & Hp).
  rewrite ConditionResolverFacts.resolveObject_record in Hr.
  destruct (resolveRecord conditions user) as [r'|] eqn:Hrec; [|done].
  simpl in Hr. injection Hr as <-. exists r'.
  unfold resolveConditions. by rewrite Hrec.
Qed.

Lemma resolveConditions_plain_witness :
  ∃ r, resolveRecord MoreExamples.own_company MoreExamples.freelancer = Ok r
       ∧ resolveConditions (Some MoreExamples.own_company)
           MoreExamples.freelancer = Ok (Some r)
       ∧ plain (VObj r) = true.
Proof.
  apply (resolveConditions_plain MoreExamples.own_company
           MoreExamples.freelancer); reflexivity.
Defined.

(** *** Conditions without templates *)

Lemma set_prop_fresh (props : object) (key : string) (s : slot) :
  key ∉ props.*1 → set_prop props key s = props ++ [(key, s)].
Proof.
  induction props as [|[k s'] props IH]; simpl; [done|].
  intros Hnot. apply not_elem_of_cons in Hnot as [Hne Hrest].
  destruct (String.eqb k key) eqn:Hk.
  - apply String.eqb_eq in Hk. by subst.
  - by rewrite IH.
Qed.

Lemma fold_static (user : value) (props acc : object) :
  NoDup (acc.*1 ++ props.*1) →
  Forall (λ kv, match kv.2 with
                | Data x => resolveObject x user = Ok x
                | Getter _ => False
                end) props →
  fold_left
    (λ acc '(key, s),
       resolved ← acc;
       v ← value ← read s; resolveObject value user;
       Ok (set_prop resolved key (Data v)))
    props (Ok acc) = Ok (acc ++ props).
Proof.
  revert acc. induction props as [|[k s] props IH]; intros acc Hnd Hall.
  - by rewrite app_nil_r.
  - apply Forall_cons in Hall as [Hs Hrest]. destruct s as [x|e]; [|done].
    simpl in Hs. simpl. rewrite Hs. simpl.
    rewrite set_prop_fresh.
    + rewrite IH; [by rewrite <- app_assoc| |done].
      rewrite fmap_app. simpl. by rewrite <- app_assoc.
    + simpl in Hnd. apply NoDup_app in Hnd as (_ & Hdisj & _).
      intros Hin. apply (Hdisj k Hin). by left.
Qed.

Lemma bind_Ok {A B} (a : A) (f : A → result B) : (Ok a ≫= f) = f a.
Proof. reflexivity. Qed.

Lemma mapM_same {A} (f : A → result A) (l : list A) :
  Forall (λ x, f x = Ok x) l → mapM f l = Ok l.
Proof.
  induction 1 as [|x l Hx _ IH]; [done|].
  by rewrite AbilityFacts.mapM_cons, Hx, IH.
Qed.

(** X2.  Conditions that hold no template string, no raising accessor
    and no key [__proto__] come out of the resolution as they went in,
    whoever the user is. *)
Theorem resolveObject_static (obj user : value) :
  static obj = true →
  resolveObject obj user = Ok obj
  ∧ ∀ props, obj = VObj props →
      resolveConditions (Some props) user = Ok (Some props).
Proof.
  intros Hobj.
  assert (resolveObject obj user = Ok obj) as Hres.
  { revert Hobj.
    induction obj as [| |b|n|s|items IH|props IH] using value_nested_ind;
      intros Hobj; try done.
    - simpl in Hobj. apply bool_decide_eq_true in Hobj.
      simpl. unfold resolveString. by rewrite Hobj.
    - simpl in Hobj. rewrite forallb_Forall in Hobj.
      simpl. fold (mapM (λ item, resolveObject item user)).
      rewrite mapM_same; [done|].
      rewrite Forall_forall in *. auto.
    - simpl in Hobj. apply andb_true_iff in Hobj as [Hnd Hall].
      apply bool_decide_eq_true in Hnd as [Hnd _].
      rewrite forallb_Forall in Hall.
      assert (plain_props : ∃ es, Object_entries props = Ok es).
      { clear IH Hnd. unfold Object_entries.
        induction props as [|[k s] props IHp]; [by eexists|].
        apply Forall_cons in Hall as [Hs Hrest].
        rewrite AbilityFacts.mapM_cons. destruct (IHp Hrest) as [es ->].
        destruct s; [by eexists|done]. }
      destruct plain_props as [es Hes].
      rewrite ConditionResolverFacts.resolveObject_record.
      unfold resolveRecord. rewrite Hes, bind_Ok.
      transitivity (VObj <$> (Ok ([] ++ props) : result object)); [|done].
      f_equal. apply fold_static; [done|].
      rewrite Forall_forall in *. intros [k s] Hin.
      specialize (IH _ Hin). specialize (Hall _ Hin). simpl in *.
      destruct s; [auto|done]. }
  split; [done|]. intros props ->.
  rewrite ConditionResolverFacts.resolveObject_record in Hres.
  unfold resolveConditions.
  destruct (resolveRecord props user) as [r|]; [|done].
  simpl in Hres. injection Hres as ->. done.
Qed.

Lemma resolveObject_static_witness :
  resolveObject (VObj MoreExamples.published_only) MoreExamples.freelancer
  = Ok (VObj MoreExamples.published_only)
  ∧ ∀ props, VObj MoreExamples.published_only = VObj props →
      resolveConditions (Some props) MoreExamples.freelancer
      = Ok (Some props).
Proof.
  apply (resolveObject_static (VObj MoreExamples.published_only)
           MoreExamples.freelancer).
  vm_compute. reflexivity.
Defined.

(** *** Paths *)

Lemma substring_whole (s : string) :
  String.substring 0 (String.length s) s = s.
Proof. induction s as [|c s IH]; simpl; [done|]. by rewrite IH. Qed.

Lemma strip_user_prefix (path : string) :
  startsWith "user." ("user." +:+ path) = true
  ∧ substring_from 5 ("user." +:+ path) = path.
Proof.
  change ("user." +:+ path)
    with (String "u" (String "s" (String "e" (String "r"
            (String "." path))))).
  split.
  - unfold startsWith. simpl. by destruct path.
  - unfold substring_from.
    change (String.substring 0 (String.length path - 0) path = path).
    rewrite Nat.sub_0_r. apply substring_whole.
Qed.

(** X3.  The prefix [user.] of a path is optional: with it or without
    it the same attribute is read. *)
Theorem resolvePath_user_prefix (path : string) (user : value) :
  startsWith "user." path = false →
  resolvePath ("user." +:+ path) user = resolvePath path user.
Proof.
  intros Hno. unfold resolvePath. rewrite Hno.
  destruct (strip_user_prefix path) as [-> ->]. done.
Qed.

Lemma resolvePath_user_prefix_witness :
  resolvePath ("user." +:+ "profile.firstname") MoreExamples.freelancer
  = resolvePath "profile.firstname" MoreExamples.freelancer.
Proof.
  apply (resolvePath_user_prefix "profile.firstname" MoreExamples.freelancer).
  reflexivity.
Defined.

Lemma walk_stops (pre rest : list string) (r : string) (user v : value) :
  walk pre user = Ok v → v = VUndefined ∨ v = VNull →
  walk (pre ++ r :: rest) user = Ok VUndefined.
Proof.
  revert user. induction pre as [|p pre IH]; intros user Hwalk Hv.
  - simpl in Hwalk. injection Hwalk as ->. by destruct Hv as [-> | ->].
  - simpl in *. destruct user; try done;
      (destruct (Js.get _ p) as [next|] eqn:Hget; [|done]);
      simpl in *; by apply IH.
Qed.

Lemma own_walk_walk (parts : list string) :
  ∀ current v, own_walk parts current = Some v → walk parts current = Ok v.
Proof.
  induction parts as [|part rest IH]; intros current v Hwalk; simpl in *.
  - by simplify_eq.
  - destruct current as [| | | | | |props]; try done; try by simplify_eq.
    simpl. destruct (own part props) as [[next|]|]; try done.
    simpl. by apply IH.
Qed.

(** X4.  When the first parts of a path are found on the user as own
    data properties and lead to [null] or [undefined] while a part is
    still to be read, the path resolves to [undefined]; nothing is
    raised. *)
Theorem resolvePath_missing_intermediate
    (path : string) (user v : value) (pre rest : list string) (r : string) :
  startsWith "user." path = false →
  split "."%char path = pre ++ r :: rest →
  own_walk pre user = Some v →
  v = VUndefined ∨ v = VNull →
  resolvePath path user = Ok VUndefined.
Proof.
  intros Hno Hsplit Hwalk Hv. unfold resolvePath.
  rewrite Hno, Hsplit.
  apply (walk_stops pre rest r user v); [|done].
  by apply own_walk_walk.
Qed.

Lemma resolvePath_missing_intermediate_witness :
  resolvePath "company.address.city" MoreExamples.freelancer = Ok VUndefined.
Proof.
  apply (resolvePath_missing_intermediate "company.address.city"
           MoreExamples.freelancer VNull ["company"] ["city"] "address");
    [reflexivity|reflexivity|reflexivity|by right].
Defined.

End ResolverMoreFacts.

(** ** The ability service *)

Module AbilityMoreFacts.

Import Casl CaslAbilityService Vocabulary Examples MoreExamples RuleStore.
Import AbilityFacts.

(** X5.  The service fails closed: a user whose role has no entry in
    the rule cache is refused everything, and so is every user once the
    cache has been cleared. *)
Theorem uncached_role_is_refused :
  (∀ (roleAbilities : gmap Z (list RawRule)) user role,
     Account.role user = Some role →
     roleAbilities !! Role.id role = None →
     ∀ action_ s field,
       checkUserAbility roleAbilities user action_ s field = Ok false
       ∧ checkUserAbilityWithConditions roleAbilities user action_ s field
         = Ok false)
  ∧ (∀ (roleAbilities : gmap Z (list RawRule)) user action_ s field,
       checkUserAbility (clearAbilitiesCache roleAbilities) user action_ s
         field = Ok false
       ∧ checkUserAbilityWithConditions (clearAbilitiesCache roleAbilities)
           user action_ s field = Ok false).
Proof.
  assert (∀ (roleAbilities : gmap Z (list RawRule)) user,
            (∀ role, Account.role user = Some role →
                     roleAbilities !! Role.id role = None) →
            defineAbilityForUser roleAbilities user = Ok None) as Hnone.
  { intros roleAbilities user H. unfold defineAbilityForUser.
    destruct (Account.role user) as [role|]; [|done].
    by rewrite (H role eq_refl). }
  split.
  - intros roleAbilities user role Hrole Hcache action_ s field.
    unfold checkUserAbility, checkUserAbilityWithConditions.
    rewrite Hnone; [done|]. intros role' Hrole'. congruence.
  - intros roleAbilities user action_ s field.
    unfold checkUserAbility, checkUserAbilityWithConditions.
    rewrite Hnone; [done|]. intros role' _. apply lookup_empty.
Qed.

Lemma uncached_role_is_refused_witness :
  checkUserAbility {[ 1 := [grant_read_course] ]} teacher "read"
    (SType "Course") None = Ok false
  ∧ checkUserAbilityWithConditions {[ 1 := [grant_read_course] ]} teacher
      "read" (SType "Course") None = Ok false.
Proof.
  apply (proj1 uncached_role_is_refused {[ 1 := [grant_read_course] ]}
           teacher teacher_role); reflexivity.
Defined.

Lemma validate_fails (l : list RawRule) :
  Exists (λ r, fields r = Some []) l → ∃ e, mapM validate l = Throw e.
Proof.
  induction 1 as [r l Hr|r l _ [e IH]]; rewrite mapM_cons.
  - assert (∃ e, validate r = Throw e) as [e ->]
      by (unfold validate; rewrite Hr; by eexists).
    by eexists.
  - rewrite IH. destruct (validate r); by eexists.
Qed.

Lemma defineAbilityForUser_malformed
    (roleAbilities : gmap Z (list RawRule)) (user : Account.t)
    (role : Role.t) (rawRules : list RawRule) :
  Account.role user = Some role →
  roleAbilities !! Role.id role = Some rawRules →
  Exists (λ r, fields r = Some []) rawRules →
  ∃ e, defineAbilityForUser roleAbilities user = Throw e.
Proof.
  intros Hrole Hcache Hbad. unfold defineAbilityForUser.
  rewrite Hrole, Hcache. rewrite (mapM_total _ (resolve_rule user)).
  - simpl. unfold createMongoAbility, build.
    destruct (validate_fails (rev (map (resolve_rule user) rawRules)))
      as [e ->]; [|by eexists].
    apply Exists_exists in Hbad as (r & Hin & Hr).
    apply Exists_exists. exists (resolve_rule user r). split; [|done].
    apply list_elem_of_In, in_rev. rewrite rev_involutive.
    apply in_map. by apply list_elem_of_In.
  - intros rule. unfold resolve_rule, resolved_for.
    destruct (conditions rule) as [c|]; [|done].
    destruct (ConditionResolverFacts.resolveConditions_total
                (Some c) (Account.to_value user)) as [r ->]. done.
Qed.

(** X6.  The checks answer with a boolean whatever happens while the
    rules are evaluated, provided every cached rule of the role has a
    list of fields that is absent or not empty; one rule with an empty
    list of fields makes every check of the role raise. *)
Theorem check_raises_only_for_empty_fields
    (roleAbilities : gmap Z (list RawRule)) (user : Account.t)
    (role : Role.t) (rawRules : list RawRule) :
  Account.role user = Some role →
  roleAbilities !! Role.id role = Some rawRules →
  (Forall (λ r, fields r ≠ Some []) rawRules →
   ∀ action_ s field,
     (∃ b, checkUserAbility roleAbilities user action_ s field = Ok b)
     ∧ ∃ b, checkUserAbilityWithConditions roleAbilities user action_ s
              field = Ok b)
  ∧ (Exists (λ r, fields r = Some []) rawRules →
     ∀ action_ s field,
       (∃ e, checkUserAbility roleAbilities user action_ s field = Throw e)
       ∧ ∃ e, checkUserAbilityWithConditions roleAbilities user action_ s
                field = Throw e).
Proof.
  intros Hrole Hcache. split.
  - intros Hvalid action_ s field.
    unfold checkUserAbility, checkUserAbilityWithConditions.
    rewrite (OwnershipFacts.defineAbilityForUser_cached _ user role rawRules
               Hrole Hcache Hvalid). simpl.
    destruct (can _ action_ s field); simpl; split; by eexists.
  - intros Hbad action_ s field.
    destruct (defineAbilityForUser_malformed _ user role rawRules
                Hrole Hcache Hbad) as [e He].
    unfold checkUserAbility, checkUserAbilityWithConditions.
    rewrite He. split; by eexists.
Qed.

Lemma check_raises_only_for_empty_fields_witness :
  (∃ b, checkUserAbility {[ 3 := [forbid_read_archived; grant_read_course] ]}
          teacher "read" archivedCourse None = Ok b)
  ∧ (∃ e, checkUserAbility {[ 3 := [grant_read_course; malformed_rule] ]}
            teacher "update" (SType "Company") None = Throw e).
Proof.
  split.
  - refine (proj1 (proj1 (check_raises_only_for_empty_fields
                     {[ 3 := [forbid_read_archived; grant_read_course] ]}
                     teacher teacher_role
                     [forbid_read_archived; grant_read_course]
                     _ _) _ "read" archivedCourse None));
      [reflexivity|reflexivity|].
    repeat constructor; done.
  - refine (proj1 (proj2 (check_raises_only_for_empty_fields
                     {[ 3 := [grant_read_course; malformed_rule] ]}
                     teacher teacher_role
                     [grant_read_course; malformed_rule]
                     _ _) _ "update" (SType "Company") None));
      [reflexivity|reflexivity|].
    right. left. reflexivity.
Defined.

(** *** Isolation of the tenants *)

Lemma find_first_grants (test : RawRule → result bool) (t : RawRule → bool)
    (l : list RawRule) :
  Forall (λ r, test r = Ok (t r) ∧ is_inverted r = false) l →
  (rule ← find_first test l;
   Ok (match rule with
       | Some r => negb (is_inverted r)
       | None => false
       end)) = Ok (existsb t l).
Proof.
  induction 1 as [|r l [Hr Hinv] _ IH]; [done|].
  simpl. rewrite Hr. simpl. destruct (t r); simpl; [by rewrite Hinv|done].
Qed.

Lemma existsb_rev {A} (f : A → bool) (l : list A) :
  existsb f (rev l) = existsb f l.
Proof.
  induction l as [|x l IH]; [done|].
  simpl. rewrite existsb_app, IH. simpl.
  rewrite orb_false_r. apply orb_comm.
Qed.

Lemma existsb_and_const {A} (f : A → bool) (b : bool) (l : list A) :
  existsb (λ x, f x && b) l = existsb f l && b.
Proof.
  induction l as [|x l IH]; [done|].
  simpl. rewrite IH. by destruct (f x), b, (existsb f l).
Qed.

Lemma existsb_resolved (user : Account.t) (action_ subjectType : string)
    (l : list RawRule) :
  existsb (concerns action_ subjectType) (map (resolve_rule user) l)
  = existsb (concerns action_ subjectType) l.
Proof. induction l as [|r l IH]; [done|]. simpl. by rewrite IH. Qed.

Lemma company_scoped_match (user : Account.t) (r : RawRule) (n : Z)
    (action_ className : string) (attrs : object) (field : option string)
    (v : value) :
  own "companyId" (Account.attributes user) = Some (Data (VNum n)) →
  MoreVocabulary.company_scoped r →
  Js.get (VObj attrs) "companyId" = Ok v →
  (∀ items, v ≠ VArr items) →
  rule_matches (resolve_rule user r) action_ (SInstance className attrs)
    field
  = Ok (concerns action_ className r && strict_eq v (VNum n)).
Proof.
  intros Hown (Hc & Hf & Hinv) Hget Hv. unfold rule_matches.
  change (concerns action_ (detectSubjectType (SInstance className attrs))
            (resolve_rule user r)) with (concerns action_ className r).
  unfold matchesField, matchesConditions, resolve_rule, resolved_for. simpl.
  rewrite Hf, Hc, andb_true_r. destruct (concerns action_ className r); [|done].
  simpl. unfold resolveConditions.
  rewrite companyId_template_resolution, Hown. simpl.
  unfold mongoQueryMatcher. simpl. unfold eq_test.
  change (getValueByPath attrs "companyId")
    with (getField (VObj attrs) "companyId").
  unfold getField. rewrite Hget. simpl.
  destruct v; try done; simpl; try by rewrite andb_true_r.
  by destruct (Hv items).
Qed.

(** X7.  A role whose rules are all grants scoped by the template
    [{companyId: "${user.companyId}"}] lets a user of company [n] act on
    an instance exactly when a rule concerns the action and the class of
    the instance and the instance belongs to company [n]. *)
Theorem company_scoped_rules_isolate_tenants
    (roleAbilities : gmap Z (list RawRule)) (user : Account.t)
    (role : Role.t) (rawRules : list RawRule) (n : Z)
    (action_ className : string) (attrs : object) (field : option string)
    (v : value) :
  own "companyId" (Account.attributes user) = Some (Data (VNum n)) →
  Account.role user = Some role →
  roleAbilities !! Role.id role = Some rawRules →
  Forall MoreVocabulary.company_scoped rawRules →
  Js.get (VObj attrs) "companyId" = Ok v →
  (∀ items, v ≠ VArr items) →
  checkUserAbilityWithConditions roleAbilities user action_
    (SInstance className attrs) field
  = Ok (existsb (concerns action_ className) rawRules
        && strict_eq v (VNum n)).
Proof.
  intros Hown Hrole Hcache Hall Hget Hv.
  assert (Forall (λ r, fields r ≠ Some []) rawRules) as Hvalid.
  { eapply Forall_impl; [exact Hall|]. intros r (_ & Hf & _). by rewrite Hf. }
  unfold checkUserAbilityWithConditions.
  rewrite (OwnershipFacts.defineAbilityForUser_cached _ user role rawRules
             Hrole Hcache Hvalid). simpl.
  unfold can, can_with. rewrite relevantRuleFor_spec. simpl.
  rewrite (find_first_grants _
             (λ r, concerns action_ className r && strict_eq v (VNum n))).
  - simpl. by rewrite existsb_rev, existsb_and_const, existsb_resolved.
  - apply Forall_rev_intro, Forall_forall. intros r' Hin.
    apply list_elem_of_In, in_map_iff in Hin as (r & <- & Hin).
    apply list_elem_of_In in Hin.
    rewrite Forall_forall in Hall. specialize (Hall r Hin).
    split.
    + by apply (company_scoped_match user r n action_ className attrs
                  field v).
    + by destruct Hall as (_ & _ & ?).
Qed.

Lemma company_scoped_rules_isolate_tenants_witness :
  checkUserAbilityWithConditions {[ 3 := [tenant_rule] ]} teacher "update"
    (invoice_of 42) None = Ok true
  ∧ checkUserAbilityWithConditions {[ 3 := [tenant_rule] ]} teacher "update"
      (invoice_of 7) None = Ok false.
Proof.
  split.
  - refine (company_scoped_rules_isolate_tenants {[ 3 := [tenant_rule] ]}
              teacher teacher_role [tenant_rule] 42 "update" "Company"
              _ None (VNum 42) _ _ _ _ _ _);
      try reflexivity; [by repeat constructor|done].
  - refine (company_scoped_rules_isolate_tenants {[ 3 := [tenant_rule] ]}
              teacher teacher_role [tenant_rule] 42 "update" "Company"
              _ None (VNum 7) _ _ _ _ _ _);
      try reflexivity; [by repeat constructor|done].
Defined.

(** *** Checks on a subject given by its name *)

Lemma grant_matches_type (user : Account.t) (r : RawRule)
    (action_ subjectType : string) (field : option string) :
  MoreVocabulary.grant_on_every_field r →
  rule_matches (resolve_rule user r) action_ (SType subjectType) field
  = Ok (concerns action_ subjectType r).
Proof.
  intros [Hf Hinv]. unfold rule_matches.
  change (concerns action_ (detectSubjectType (SType subjectType))
            (resolve_rule user r)) with (concerns action_ subjectType r).
  unfold matchesField, matchesConditions. simpl. rewrite Hf, andb_true_r.
  destruct (concerns action_ subjectType r); [|done].
  destruct (resolved_for user (conditions r)); [|done].
  change (is_inverted (resolve_rule user r)) with (is_inverted r).
  by rewrite Hinv.
Qed.

Lemma named_check (cache : gmap Z (list RawRule)) (user : Account.t)
    (role : Role.t) (rawRules : list RawRule)
    (action_ subjectType : string) (field : option string) :
  Account.role user = Some role →
  cache !! Role.id role = Some rawRules →
  Forall MoreVocabulary.grant_on_every_field rawRules →
  checkUserAbility cache user action_ (SType subjectType) field
  = Ok (existsb (concerns action_ subjectType) rawRules).
Proof.
  intros Hrole Hcache Hall.
  assert (Forall (λ r, fields r ≠ Some []) rawRules) as Hvalid.
  { eapply Forall_impl; [exact Hall|]. intros r [Hf _]. by rewrite Hf. }
  unfold checkUserAbility.
  rewrite (OwnershipFacts.defineAbilityForUser_cached _ user role rawRules
             Hrole Hcache Hvalid). simpl.
  unfold can, can_with. rewrite relevantRuleFor_spec. simpl.
  rewrite (find_first_grants _ (concerns action_ subjectType)).
  - simpl. by rewrite existsb_rev, existsb_resolved.
  - apply Forall_rev_intro, Forall_forall. intros r' Hin.
    apply list_elem_of_In, in_map_iff in Hin as (r & <- & Hin).
    apply list_elem_of_In in Hin.
    rewrite Forall_forall in Hall. specialize (Hall r Hin).
    split; [by rewrite grant_matches_type|].
    destruct Hall as [_ Hinv]. exact Hinv.
Qed.

(** X10.  A check on a subject given by its name does not look at the
    conditions: with rules that are grants on every field, the answer is
    whether some rule concerns the action and the subject, whatever the
    conditions are and whoever the user is.  The permission check the
    guard relies on is such a check. *)
Theorem named_subject_check_ignores_conditions
    (env : Env) (user : Account.t) (role : Role.t)
    (rawRules : list RawRule) :
  Account.role user = Some role →
  roleAbilities env !! Role.id role = Some rawRules →
  Forall MoreVocabulary.grant_on_every_field rawRules →
  (∀ action_ subjectType field,
     checkUserAbility (roleAbilities env) user action_ (SType subjectType)
       field
     = Ok (existsb (concerns action_ subjectType) rawRules))
  ∧ (∀ dto,
       accounts env !! dto_userId dto = Some user →
       AccountService.checkPermission env dto
       = Ok (existsb (concerns (dto_action dto) (dto_subject dto))
               rawRules)).
Proof.
  intros Hrole Hcache Hall. split.
  - intros action_ subjectType field. by apply (named_check _ user role).
  - intros dto Hacc. unfold AccountService.checkPermission.
    rewrite Hacc. simpl. by apply (named_check _ user role).
Qed.

Lemma named_subject_check_ignores_conditions_witness :
  (∀ action_ subjectType field,
     checkUserAbility (roleAbilities counting_house) clerk action_
       (SType subjectType) field
     = Ok (existsb (concerns action_ subjectType) [scoped_invoices]))
  ∧ (∀ dto,
       accounts counting_house !! dto_userId dto = Some clerk →
       AccountService.checkPermission counting_house dto
       = Ok (existsb (concerns (dto_action dto) (dto_subject dto))
               [scoped_invoices])).
Proof.
  apply (named_subject_check_ignores_conditions counting_house
           clerk clerk_role [scoped_invoices]);
    [reflexivity|reflexivity|by repeat constructor].
Defined.

End AbilityMoreFacts.

(** ** The permission guard, branch by branch *)

Module GuardMoreFacts.

Import Casl CaslAbilityService HasPermissionsGuard Vocabulary MoreVocabulary.
Import Examples MoreExamples.

(** What the guard does once it reaches the permission check. *)
Lemma canActivate_checked (env : Env) (context : ExecutionContext)
    (u : Account.t) (pm : PermissionMetadata) (subject_ : string) :
  reaches_check context u pm subject_ →
  calls (canActivate env context) = [checked_dto u pm subject_]
  ∧ (outcome (canActivate env context) = Ok true
     ↔ AccountService.checkPermission env (checked_dto u pm subject_)
       = Ok true)
  ∧ ∀ e, AccountService.checkPermission env (checked_dto u pm subject_)
         = Throw e →
         outcome (canActivate env context) = Throw e.
Proof.
  intros (Hpub & Huser & Hperm & Hsubj & Hres).
  unfold canActivate. rewrite Hpub, Huser, Hperm.
  unfold checked_subject in Hsubj. rewrite Hsubj.
  fold (checked_dto u pm subject_).
  destruct (default false (checkResource pm)).
  - destruct (Hres eq_refl) as [rid ->]. simpl.
    destruct (AccountService.checkPermission env _) as [[|]|e'];
      simpl; repeat split; try done; intros; by simplify_eq.
  - simpl.
    destruct (AccountService.checkPermission env _) as [[|]|e'];
      simpl; repeat split; try done; intros; by simplify_eq.
Qed.

(** X8.  The guard lets a request through in three cases only: the
    route is public; or the request has a user and the handler has no
    permission metadata; or the guard reaches the permission check and
    the account service answers [true]. *)
Theorem guard_grants_iff (env : Env) (context : ExecutionContext) :
  outcome (canActivate env context) = Ok true
  ↔ default false (isPublic context) = true
    ∨ (default false (isPublic context) = false
       ∧ is_Some (user (request context))
       ∧ permissions context = None)
    ∨ ∃ u pm subject_,
        reaches_check context u pm subject_
        ∧ AccountService.checkPermission env (checked_dto u pm subject_)
          = Ok true.
Proof.
  split.
  - intros Hok.
    destruct (default false (isPublic context)) eqn:Hpub; [by left|right].
    destruct (user (request context)) as [u|] eqn:Huser;
      [|by unfold canActivate in Hok; rewrite Hpub, Huser in Hok].
    destruct (permissions context) as [pm|] eqn:Hperm; [right|by left].
    destruct (checked_subject pm context) as [subject_|] eqn:Hsubj.
    + assert (reaches_check context u pm subject_) as Hreach.
      { repeat split; try done. intros Hres.
        destruct (nonempty (params_id (request context))) eqn:Hid;
          [by eexists|].
        unfold canActivate in Hok. rewrite Hpub, Huser, Hperm in Hok.
        unfold checked_subject in Hsubj. rewrite Hsubj, Hres, Hid in Hok.
        done. }
      exists u, pm, subject_. split; [done|].
      by apply (canActivate_checked env context u pm subject_ Hreach).
    + unfold canActivate in Hok. rewrite Hpub, Huser, Hperm in Hok.
      unfold checked_subject in Hsubj. by rewrite Hsubj in Hok.
  - intros [Hpub|[(Hpub & [u Huser] & Hperm)|(u & pm & subject_ & Hr & Hc)]].
    + unfold canActivate. by rewrite Hpub.
    + unfold canActivate. by rewrite Hpub, Huser, Hperm.
    + by apply (canActivate_checked env context u pm subject_ Hr).
Qed.

Lemma guard_grants_iff_witness :
  outcome (canActivate bureau (roles_route auditor_token)) = Ok true.
Proof.
  apply (proj2 (guard_grants_iff bureau (roles_route auditor_token))).
  right. right. exists auditor_token, read_roles, "role".
  split; [|reflexivity].
  repeat split; try reflexivity. intros Hres. discriminate Hres.
Defined.

(** X9.  When the guard consults the account service it does so once,
    for the identifier of the request user, the action and the field of
    the metadata, and the subject of the metadata or else the path of the
    controller. *)
Theorem guard_asks_once (env : Env) (context : ExecutionContext)
    (dto : CheckPermissionDTO) :
  dto ∈ calls (canActivate env context) →
  ∃ u pm subject_,
    reaches_check context u pm subject_
    ∧ dto = checked_dto u pm subject_
    ∧ calls (canActivate env context) = [dto].
Proof.
  unfold canActivate.
  destruct (default false (isPublic context)) eqn:Hpub;
    [by intros ?%elem_of_nil|].
  destruct (user (request context)) as [u|] eqn:Huser;
    [|by intros ?%elem_of_nil].
  destruct (permissions context) as [pm|] eqn:Hperm;
    [|by intros ?%elem_of_nil].
  destruct (match nonempty (subject pm) with
            | Some s => Some s
            | None => nonempty (path context)
            end) as [subject_|] eqn:Hsubj; [|by intros ?%elem_of_nil].
  fold (checked_dto u pm subject_).
  destruct (default false (checkResource pm)) eqn:Hres.
  - destruct (nonempty (params_id (request context))) eqn:Hid;
      [|by intros ?%elem_of_nil].
    simpl. intros ->%list_elem_of_singleton.
    exists u, pm, subject_. repeat split; try done; try by eexists.
  - simpl. intros ->%list_elem_of_singleton.
    exists u, pm, subject_. repeat split; try done.
    intros ?. congruence.
Qed.

Lemma guard_asks_once_witness :
  ∃ u pm subject_,
    reaches_check (roles_route auditor) u pm subject_
    ∧ checked_dto auditor read_roles "role" = checked_dto u pm subject_
    ∧ calls (canActivate bureau (roles_route auditor))
      = [checked_dto auditor read_roles "role"].
Proof.
  apply (guard_asks_once bureau (roles_route auditor)
           (checked_dto auditor read_roles "role")).
  vm_compute. by left.
Defined.

(** X11.  Of the user of the request the guard uses the identifier
    only: the role and the attributes are read again from the accounts
    table, and the HTTP method plays no part. *)
Theorem guard_uses_only_the_identifier
    (env : Env) (context context' : ExecutionContext) (u u' : Account.t) :
  isPublic context = isPublic context' →
  permissions context = permissions context' →
  path context = path context' →
  params_id (request context) = params_id (request context') →
  user (request context) = Some u →
  user (request context') = Some u' →
  Account.id u = Account.id u' →
  canActivate env context = canActivate env context'.
Proof.
  intros Hpub Hperm Hpath Hid Hu Hu' Hsame. unfold canActivate.
  by rewrite <- Hpub, <- Hperm, <- Hpath, <- Hid, Hu, Hu', Hsame.
Qed.

Lemma guard_uses_only_the_identifier_witness :
  canActivate bureau (roles_route auditor_token)
  = canActivate bureau (roles_route auditor).
Proof.
  apply (guard_uses_only_the_identifier bureau (roles_route auditor_token)
           (roles_route auditor) auditor_token auditor); reflexivity.
Defined.

(** X12.  When the account of the request user is not in the accounts
    table any more, a protected route ends with the error of the lookup,
    which is not a [ForbiddenException]. *)
Theorem guard_fails_for_unknown_account
    (env : Env) (context : ExecutionContext) (u : Account.t)
    (pm : PermissionMetadata) (subject_ : string) :
  reaches_check context u pm subject_ →
  accounts env !! Account.id u = None →
  outcome (canActivate env context) = Throw (EntityNotFoundError "Account").
Proof.
  intros Hreach Hnone.
  apply (canActivate_checked env context u pm subject_ Hreach).
  unfold AccountService.checkPermission. simpl. by rewrite Hnone.
Qed.

Lemma guard_fails_for_unknown_account_witness :
  outcome (canActivate empty_env (roles_route auditor))
  = Throw (EntityNotFoundError "Account").
Proof.
  apply (guard_fails_for_unknown_account empty_env (roles_route auditor)
           auditor read_roles "role").
  - repeat split; try reflexivity. intros H. discriminate H.
  - reflexivity.
Defined.

End GuardMoreFacts.

(** ** The owner guard, branch by branch *)

Module OwnerGuardMoreFacts.

Import Casl CaslAbilityService ResourceOwnerGuard Vocabulary MoreVocabulary.
Import Examples MoreExamples.

Lemma rethrow_forbidden (m : result bool) (e : exn) :
  try_catch m rethrow = Throw e → ∃ msg, e = ForbiddenException msg.
Proof.
  destruct m as [b|e']; simpl; [done|].
  destruct e'; simpl; intros ?; simplify_eq; by eexists.
Qed.

(** X13.  Whatever goes wrong in the owner guard, the getter of the
    resource, an accessor of the resource or the construction of the
    ability, what it raises is a [ForbiddenException]. *)
Theorem owner_guard_raises_only_forbidden
    (env : Env) (context : ExecutionContext) (e : exn) :
  canActivate env context = Throw e → ∃ msg, e = ForbiddenException msg.
Proof.
  unfold canActivate.
  destruct (resourceOwner context) as [md|]; [|done].
  destruct (user (request context)) as [u|].
  - apply rethrow_forbidden.
  - intros ?; simplify_eq. by eexists.
Qed.

Lemma owner_guard_raises_only_forbidden_witness :
  canActivate office (delete_by reader broken_getter)
  = Throw (ForbiddenException "Error checking resource ownership")
  ∧ ∃ msg,
      ForbiddenException "Error checking resource ownership"
      = ForbiddenException msg.
Proof.
  split; [reflexivity|].
  apply (owner_guard_raises_only_forbidden office
           (delete_by reader broken_getter)
           (ForbiddenException "Error checking resource ownership")).
  reflexivity.
Defined.

(** The decimal text of an identifier is not empty. *)
Lemma pretty_N_go_grows (x : N) (s : string) :
  (String.length s ≤ String.length (pretty_N_go x s))%nat.
Proof.
  revert s. induction (N.lt_wf_0 x) as [x _ IH]; intros s.
  assert (x = 0 ∨ 0 < x)%N as [->|Hx] by lia.
  - by rewrite pretty_N_go_0.
  - rewrite pretty_N_go_step by done.
    etrans; [|apply IH; by apply N.div_lt]. simpl. lia.
Qed.

Lemma pretty_Z_nonempty (z : Z) : pretty z ≠ "".
Proof.
  destruct z as [|p|p]; [done| |done].
  unfold pretty, pretty_Z, pretty, pretty_positive, pretty, pretty_N.
  destruct (decide (N.pos p = 0%N)); [done|].
  rewrite pretty_N_go_step by lia. intros Heq.
  pose proof (pretty_N_go_grows (N.pos p `div` 10)
                (String (pretty_N_char (N.pos p `mod` 10)) "")) as Hlen.
  rewrite Heq in Hlen. simpl in Hlen. lia.
Qed.

Lemma names_owner_ok (ownerId : value) (userId : Z) :
  names_owner ownerId userId →
  truthy ownerId = true ∧ isOwner ownerId userId = Ok true.
Proof.
  intros [[-> Hnz]|[->|(props & -> & Hid)]].
  - split.
    + simpl. by apply negb_true_iff, Z.eqb_neq.
    + unfold isOwner. simpl. by rewrite Z.eqb_refl.
  - split.
    + simpl. apply negb_true_iff, String.eqb_neq, pretty_Z_nonempty.
    + unfold isOwner. simpl. by rewrite String.eqb_refl.
  - split; [done|].
    unfold isOwner. simpl. rewrite Hid. simpl. by rewrite Z.eqb_refl.
Qed.

(** X14.  The owner is let through whatever the rule cache holds and
    whether or not the override is permitted, under each of the three
    shapes of the owner field: the identifier (when it is not 0), its
    decimal text, an object whose [id] is the identifier. *)
Theorem owner_is_allowed
    (env : Env) (context : ExecutionContext) (md : ResourceOwnerMetadata)
    (u : Account.t) (res : Resource) (ownerId : value) :
  resourceOwner context = Some md →
  user (request context) = Some u →
  resourceGetter md = Ok (Some res) →
  getNestedProperty (VObj (attrs res)) (default "ownerId" (ownerField md))
  = Ok ownerId →
  names_owner ownerId (Account.id u) →
  canActivate env context = Ok true.
Proof.
  intros Hmd Huser Hres Howner Hname.
  destruct (names_owner_ok _ _ Hname) as [Htruthy Hyes].
  unfold canActivate. rewrite Hmd, Huser, Hres. simpl.
  rewrite Howner. simpl. rewrite Htruthy. simpl. by rewrite Hyes.
Qed.

Lemma owner_is_allowed_witness :
  canActivate empty_env
    (delete_by reader (owner_check "account" false owned_through_account))
  = Ok true.
Proof.
  apply (owner_is_allowed empty_env _
           (owner_check "account" false owned_through_account)
           reader owned_through_account
           (VObj [("id", Data (VNum 21));
                  ("email", Data (VStr "r@example.org"))]));
    try reflexivity.
  right. right. eexists. split; reflexivity.
Defined.

(** X15.  With the override switched off a user who is not the owner is
    rejected whatever the role grants. *)
Theorem no_override_no_access
    (env : Env) (context : ExecutionContext) (md : ResourceOwnerMetadata)
    (u : Account.t) (res : Resource) (ownerId : value) :
  resourceOwner context = Some md →
  user (request context) = Some u →
  resourceGetter md = Ok (Some res) →
  allowAdminOverride md = Some false →
  getNestedProperty (VObj (attrs res)) (default "ownerId" (ownerField md))
  = Ok ownerId →
  truthy ownerId = true →
  isOwner ownerId (Account.id u) = Ok false →
  canActivate env context
  = Throw (ForbiddenException "You can only access your own resources").
Proof.
  intros Hmd Huser Hres Hover Howner Htruthy Hnot.
  unfold canActivate. rewrite Hmd, Huser, Hres, Hover. simpl.
  rewrite Howner. simpl. rewrite Htruthy. simpl. by rewrite Hnot.
Qed.

Lemma no_override_no_access_witness :
  canActivate office
    (delete_by admin (owner_check "ownerId" false owned_by_99))
  = Throw (ForbiddenException "You can only access your own resources").
Proof.
  apply (no_override_no_access office _
           (owner_check "ownerId" false owned_by_99) admin owned_by_99
           (VNum 99)); reflexivity.
Defined.

(** X27.  The owner guard builds the ability from the user of the
    request as it stands.  The user the JWT strategy puts there has no
    role, so such a user who is not the owner is rejected whether or not
    the override is permitted, whatever the accounts table and the rule
    cache hold for that identifier. *)
Theorem token_user_gets_no_override
    (env : Env) (context : ExecutionContext) (md : ResourceOwnerMetadata)
    (sub : Z) (email : value) (res : Resource) (ownerId : value) :
  resourceOwner context = Some md →
  user (request context) = Some (JwtStrategy.validate sub email) →
  resourceGetter md = Ok (Some res) →
  getNestedProperty (VObj (attrs res)) (default "ownerId" (ownerField md))
  = Ok ownerId →
  truthy ownerId = true →
  isOwner ownerId sub = Ok false →
  canActivate env context
  = Throw (ForbiddenException "You can only access your own resources").
Proof.
  intros Hmd Huser Hres Howner Htruthy Hnot.
  unfold canActivate. rewrite Hmd, Huser, Hres. simpl.
  rewrite Howner. simpl. rewrite Htruthy. simpl. rewrite Hnot. simpl.
  by destruct (default true (allowAdminOverride md)).
Qed.

Lemma token_user_gets_no_override_witness :
  canActivate office (patch_by admin_token owned_by_99)
  = Throw (ForbiddenException "You can only access your own resources").
Proof.
  apply (token_user_gets_no_override office (patch_by admin_token owned_by_99)
           (default_owner_check owned_by_99) 20 (VStr "admin@example.org")
           owned_by_99 (VNum 99)); reflexivity.
Defined.

Lemma upper_idempotent (c : ascii) : upper (upper c) = upper c.
Proof. by destruct c as [[] [] [] [] [] [] [] []]. Qed.

Lemma toUpperCase_idempotent (s : string) :
  toUpperCase (toUpperCase s) = toUpperCase s.
Proof.
  induction s as [|c s IH]; [done|].
  simpl. by rewrite upper_idempotent, IH.
Qed.

(** X16.  The action derived from the HTTP method does not depend on the
    case of the method, is one of [read], [create], [update] and [delete],
    never [manage], and is [read] for every method other than GET, POST,
    PATCH, PUT and DELETE. *)
Theorem mapMethodToAction_range (method_ : string) :
  mapMethodToAction (toUpperCase method_) = mapMethodToAction method_
  ∧ mapMethodToAction method_ ∈ ["read"; "create"; "update"; "delete"]
  ∧ mapMethodToAction method_ ≠ "manage"
  ∧ (toUpperCase method_ ∉ ["GET"; "POST"; "PATCH"; "PUT"; "DELETE"] →
     mapMethodToAction method_ = "read").
Proof.
  split; [|split; [|split]].
  - unfold mapMethodToAction. by rewrite toUpperCase_idempotent.
  - unfold mapMethodToAction.
    repeat (destruct (String.eqb _ _); [set_solver|]). set_solver.
  - unfold mapMethodToAction.
    repeat (destruct (String.eqb _ _); [done|]). done.
  - intros Hnot. unfold mapMethodToAction.
    assert (∀ verb, verb ∈ ["GET"; "POST"; "PATCH"; "PUT"; "DELETE"] →
                    String.eqb (toUpperCase method_) verb = false) as Hne.
    { intros verb Hin. apply String.eqb_neq. intros Heq. apply Hnot.
      by rewrite Heq. }
    rewrite !Hne by set_solver. done.
Qed.

Lemma mapMethodToAction_range_witness :
  mapMethodToAction "options" = "read".
Proof.
  apply (proj2 (proj2 (proj2 (mapMethodToAction_range "options")))).
  intros Hin.
  repeat (apply elem_of_cons in Hin as [Hin|Hin]; [discriminate Hin|]).
  by apply elem_of_nil in Hin.
Defined.

End OwnerGuardMoreFacts.

(** ** The role service, failure by failure *)

Module RoleServiceMoreFacts.

Import AuditLogService RoleService Vocabulary MoreVocabulary.
Import Examples MoreExamples.

Lemma wrapped {A} (m : M A) (wrapper : exn) (db db' : Db) (e : exn) :
  try_catch_M m (λ _, throw wrapper) db = (db', Throw e) → e = wrapper.
Proof.
  unfold try_catch_M, throw. destruct (m db) as [d [a|e']]; intros ?;
    by simplify_eq.
Qed.

(** X17.  Whatever fails inside, [addPermission] raises its
    [AddPermissionException] and [removePermission] its
    [RemovePermissionException], each naming the identifiers it was given;
    the cause does not come out. *)
Theorem mutation_errors_are_wrapped (fl : Faults) :
  (∀ roleId permission actor ip ua db db' e,
     addPermission fl roleId permission actor ip ua db = (db', Throw e) →
     e = AddPermissionException
           ("error adding permission to role id " +:+ pretty roleId))
  ∧ (∀ roleId permissionId actor ip ua db db' e,
       removePermission fl roleId permissionId actor ip ua db
       = (db', Throw e) →
       e = RemovePermissionException
             ("Error removing permission (" +:+ permissionId
              +:+ ") from role (" +:+ pretty roleId +:+ ")")).
Proof.
  split.
  - intros roleId permission actor ip ua db db' e. apply wrapped.
  - intros roleId permissionId actor ip ua db db' e. apply wrapped.
Qed.

Lemma mutation_errors_are_wrapped_witness :
  ∃ e,
    addPermission role_find_down 1 update_company (Some root) None None db0
    = (db0, Throw e)
    ∧ e = AddPermissionException
            ("error adding permission to role id " +:+ pretty 1).
Proof.
  eexists. split; [reflexivity|].
  apply (proj1 (mutation_errors_are_wrapped role_find_down) 1 update_company
           (Some root) None None db0 db0).
  reflexivity.
Defined.

(** X18.  Removing a permission the role does not have, from a role
    that does not exist or under a text that is not the decimal form of
    the identifier, raises and writes nothing: no table changes and no
    audit entry is stored. *)
Theorem remove_unknown_changes_nothing
    (fl : Faults) (roleId : Z) (permissionId : string)
    (actor : option Account.t) (ip ua : option string) (db : Db) :
  unknown_permission db roleId permissionId →
  removePermission fl roleId permissionId actor ip ua db
  = (db, Throw (RemovePermissionException
                  ("Error removing permission (" +:+ permissionId
                   +:+ ") from role (" +:+ pretty roleId +:+ ")"))).
Proof.
  unfold unknown_permission, removePermission, try_catch_M, mbind, M_bind,
    Repo.findRoleOrFail, throw.
  destruct (role_find_fails fl); [done|].
  destruct (roles db !! roleId) as [role|]; [|done].
  destruct (Role.permissions role) as [perms|]; [|done].
  by intros ->.
Qed.

Lemma remove_unknown_changes_nothing_witness :
  removePermission no_faults 1 "04" (Some root) None None db0
  = (db0, Throw (RemovePermissionException
                   ("Error removing permission (" +:+ "04"
                    +:+ ") from role (" +:+ pretty 1 +:+ ")"))).
Proof.
  apply (remove_unknown_changes_nothing no_faults 1 "04" (Some root)
           None None db0).
  vm_compute. reflexivity.
Defined.

(** X19.  [addPermission] is not atomic: when the save of the role
    fails the call raises, the role is as before and no audit entry is
    written, but the permission saved just before stays in its table,
    attached to no role. *)
Theorem failed_role_save_leaves_permission
    (fl : Faults) (roleId : Z) (permission : Permission.t)
    (actor : option Account.t) (ip ua : option string) (db : Db)
    (role : Role.t) :
  role_find_fails fl = false →
  permission_save_fails fl = false →
  role_save_fails fl = true →
  roles db !! roleId = Some role →
  ∃ db' saved,
    addPermission fl roleId permission actor ip ua db
    = (db', Throw (AddPermissionException
                     ("error adding permission to role id "
                      +:+ pretty roleId)))
    ∧ permissions db' !! next_id db = Some saved
    ∧ snapshot_of saved = snapshot_of permission
    ∧ roles db' = roles db
    ∧ audit_logs db' = audit_logs db.
Proof.
  intros Hfind Hsave Hrole Hlook.
  unfold addPermission, try_catch_M, mbind, M_bind, throw,
    Repo.findRoleOrFail, Repo.savePermission, Repo.saveRole.
  rewrite Hfind, Hlook, Hsave, Hrole. simpl.
  eexists _, _. split; [reflexivity|]. simpl.
  split; [apply lookup_insert_eq|done].
Qed.

Lemma failed_role_save_leaves_permission_witness :
  ∃ db' saved,
    addPermission role_save_down 1 update_company (Some root) None None db0
    = (db', Throw (AddPermissionException
                     ("error adding permission to role id " +:+ pretty 1)))
    ∧ permissions db' !! next_id db0 = Some saved
    ∧ snapshot_of saved = snapshot_of update_company
    ∧ roles db' = roles db0
    ∧ audit_logs db' = audit_logs db0.
Proof.
  apply (failed_role_save_leaves_permission role_save_down 1 update_company
           (Some root) None None db0 editor); reflexivity.
Defined.

Lemma find_fresh (n : Z) (perms : list Permission.t) (saved : Permission.t) :
  Forall (λ p, Permission.id p ≠ n) perms →
  Permission.id saved = n →
  List.find (same_id (pretty n)) (perms ++ [saved]) = Some saved.
Proof.
  intros Hfresh Hid. induction Hfresh as [|p perms Hp _ IH]; simpl.
  - unfold same_id. rewrite Hid, String.eqb_refl. done.
  - unfold same_id at 1.
    destruct (String.eqb_spec (pretty (Permission.id p)) (pretty n))
      as [Heq|_]; [|exact IH].
    by apply (inj pretty) in Heq.
Qed.

Lemma filter_fresh (n : Z) (perms : list Permission.t) (saved : Permission.t) :
  Forall (λ p, Permission.id p ≠ n) perms →
  Permission.id saved = n →
  List.filter (λ p, negb (same_id (pretty n) p)) (perms ++ [saved]) = perms.
Proof.
  intros Hfresh Hid. induction Hfresh as [|p perms Hp _ IH]; simpl.
  - unfold same_id. rewrite Hid, String.eqb_refl. done.
  - unfold same_id at 1.
    destruct (String.eqb_spec (pretty (Permission.id p)) (pretty n))
      as [Heq|_]; simpl; [|by rewrite IH].
    by apply (inj pretty) in Heq.
Qed.

(** X20.  Granting a permission and then revoking it under the
    identifier it was saved with brings the roles and the permissions back
    to what they were, and leaves two audit entries: the grant filed under
    the identifier of the role, the revocation under the identifier of the
    permission. *)
Theorem add_then_remove_restores
    (fl : Faults) (roleId : Z) (permission : Permission.t)
    (actor : Account.t) (ip ua : option string) (db : Db)
    (role : Role.t) (perms : list Permission.t) :
  faultless fl →
  roles db !! roleId = Some role →
  Role.id role = roleId →
  Role.permissions role = Some perms →
  Forall (λ p, Permission.id p ≠ next_id db) perms →
  permissions db !! next_id db = None →
  ∃ db1 role1 db2 granted revoked,
    addPermission fl roleId permission (Some actor) ip ua db
    = (db1, Ok role1)
    ∧ removePermission fl roleId (pretty (next_id db)) (Some actor) ip ua db1
      = (db2, Ok 1)
    ∧ roles db2 = roles db
    ∧ permissions db2 = permissions db
    ∧ audit_logs db2 = audit_logs db ++ [granted; revoked]
    ∧ AuditLog.action granted = GRANT_PERMISSION
    ∧ AuditLog.entityId granted = Some (pretty roleId)
    ∧ AuditLog.action revoked = REVOKE_PERMISSION
    ∧ AuditLog.entityId revoked = Some (pretty (next_id db)).
Proof.
  intros (Hfind & Hpsave & Hrsave & Hdel & Haudit) Hlook Hid Hperms Hfresh
    Hnew.
  destruct role as [rid rname rdesc rperms]. simpl in Hid, Hperms. subst.
  unfold addPermission, removePermission, logPermissionGrant,
    logPermissionRevoke, logAction, try_catch_M, mbind, M_bind, mret, M_ret,
    throw, Repo.findRoleOrFail, Repo.savePermission, Repo.saveRole,
    Repo.saveAuditLog, Repo.deletePermission, create.
  rewrite Hfind, Hpsave, Hrsave, Haudit, Hdel, Hlook. simpl.
  eexists _, _, _, _, _. split; [reflexivity|]. simpl.
  rewrite lookup_insert_eq. simpl.
  rewrite (find_fresh (next_id db)) by done. simpl.
  rewrite (filter_fresh (next_id db)) by done.
  rewrite lookup_insert_eq, bool_decide_eq_true_2 by done.
  split; [reflexivity|]. simpl.
  split; [by rewrite insert_insert_eq, insert_id|].
  split; [by rewrite delete_insert_eq, delete_id|].
  split; [by rewrite <- app_assoc|]. done.
Qed.

Lemma add_then_remove_restores_witness :
  ∃ db1 role1 db2 granted revoked,
    addPermission no_faults 1 update_company (Some root) None None db0
    = (db1, Ok role1)
    ∧ removePermission no_faults 1 (pretty (next_id db0)) (Some root)
        None None db1
      = (db2, Ok 1)
    ∧ roles db2 = roles db0
    ∧ permissions db2 = permissions db0
    ∧ audit_logs db2 = audit_logs db0 ++ [granted; revoked]
    ∧ AuditLog.action granted = GRANT_PERMISSION
    ∧ AuditLog.entityId granted = Some (pretty 1)
    ∧ AuditLog.action revoked = REVOKE_PERMISSION
    ∧ AuditLog.entityId revoked = Some (pretty (next_id db0)).
Proof.
  apply (add_then_remove_restores no_faults 1 update_company root None None
           db0 editor [read_company]).
  - repeat split.
  - reflexivity.
  - reflexivity.
  - reflexivity.
  - repeat constructor. vm_compute. discriminate.
  - reflexivity.
Defined.

End RoleServiceMoreFacts.

(** ** The rule store *)

Module RuleStoreFacts.

Import Casl RuleStore Vocabulary MoreVocabulary Examples MoreExamples.

Lemma store_frame (found : list Role.t) :
  ∀ cache cache' r k,
    store found cache = (cache', r) →
    k ∉ Role.id <$> found →
    cache' !! k = cache !! k.
Proof.
  induction found as [|role rest IH]; intros cache cache' r k Hs Hk;
    simpl in Hs.
  - by simplify_eq.
  - rewrite fmap_cons, not_elem_of_cons in Hk. destruct Hk as [Hne Hk].
    destruct (Role.permissions role) as [ps|]; [|by simplify_eq].
    rewrite (IH _ _ _ _ Hs Hk). by apply lookup_insert_ne.
Qed.

Lemma store_lookup (found : list Role.t) :
  ∀ cache cache' r role ps,
    NoDup (Role.id <$> found) →
    store found cache = (cache', Ok r) →
    role ∈ found →
    Role.permissions role = Some ps →
    cache' !! Role.id role = Some (map rule_of_permission ps).
Proof.
  induction found as [|first rest IH];
    intros cache cache' r role ps Hnd Hs Hin Hps.
  - by apply elem_of_nil in Hin.
  - rewrite fmap_cons, NoDup_cons in Hnd. destruct Hnd as [Hfirst Hnd].
    simpl in Hs.
    destruct (Role.permissions first) as [ps'|] eqn:Hps'; [|by simplify_eq].
    apply elem_of_cons in Hin as [->|Hin].
    + rewrite (store_frame _ _ _ _ _ Hs Hfirst), lookup_insert_eq.
      congruence.
    + by apply (IH _ _ r role ps Hnd Hs).
Qed.

Lemma store_ok (found : list Role.t) :
  ∀ cache,
    Forall (λ role, is_Some (Role.permissions role)) found →
    ∃ cache', store found cache = (cache', Ok ()).
Proof.
  induction found as [|first rest IH]; intros cache Hall; simpl.
  - by eexists.
  - apply Forall_cons in Hall as [[ps ->] Hall]. by apply IH.
Qed.

(** X21.  Loading the rules of all roles resolves when the roles can be
    read, and then the cache has, for every role of the table, the rules
    of its permissions in their order; an entry of the cache whose role
    is no longer in the table is left as it is. *)
Theorem load_mirrors_roles_table
    (fl : Faults) (db : Db) (cache : gmap Z (list RawRule)) :
  role_find_fails fl = false →
  well_loaded db →
  ∃ cache',
    initRolesAbilities fl None db cache = (cache', Resolved)
    ∧ (∀ k role,
         roles db !! k = Some role →
         cache' !! k = map rule_of_permission <$> Role.permissions role)
    ∧ (∀ k, roles db !! k = None → cache' !! k = cache !! k).
Proof.
  intros Hfind Hwf. unfold initRolesAbilities, find. rewrite Hfind.
  set (found := (map_to_list (roles db)).*2).
  assert (∀ role, role ∈ found ↔ roles db !! Role.id role = Some role)
    as Hfound.
  { intros role. unfold found. rewrite list_elem_of_fmap. split.
    - intros ([k role'] & -> & Hin). apply elem_of_map_to_list in Hin.
      simpl. by destruct (Hwf k role' Hin) as [-> _].
    - intros Hlook. exists (Role.id role, role). split; [done|].
      by apply elem_of_map_to_list. }
  assert (Role.id <$> found = (map_to_list (roles db)).*1) as Hids.
  { unfold found. rewrite <- list_fmap_compose.
    apply list_fmap_ext. intros i [k role] Hin. simpl.
    apply list_elem_of_lookup_2, elem_of_map_to_list in Hin.
    by destruct (Hwf k role Hin). }
  destruct (store_ok found cache) as [cache' Hstore].
  { apply Forall_forall. intros role Hin. apply Hfound in Hin.
    by destruct (Hwf _ _ Hin). }
  exists cache'. rewrite Hstore. split; [done|]. split.
  - intros k role Hlook. destruct (Hwf k role Hlook) as [<- [ps Hps]].
    rewrite Hps. simpl.
    apply (store_lookup found cache cache' () role ps); try done.
    + rewrite Hids. apply NoDup_fst_map_to_list.
    + by apply Hfound.
  - intros k Hnone. apply (store_frame found cache cache' (Ok ()) k Hstore).
    rewrite Hids. intros Hin. apply list_elem_of_fmap in Hin
      as ([k' role] & -> & Hin). apply elem_of_map_to_list in Hin.
    simpl in Hnone. congruence.
Qed.

Lemma load_mirrors_roles_table_witness :
  ∃ cache',
    initRolesAbilities no_faults None db0 stale_cache = (cache', Resolved)
    ∧ (∀ k role,
         roles db0 !! k = Some role →
         cache' !! k = map rule_of_permission <$> Role.permissions role)
    ∧ (∀ k, roles db0 !! k = None → cache' !! k = stale_cache !! k).
Proof.
  apply (load_mirrors_roles_table no_faults db0 stale_cache).
  - reflexivity.
  - intros k role Hlook. unfold db0 in Hlook. simpl in Hlook.
    apply lookup_singleton_Some in Hlook as [<- <-]. split; [reflexivity|].
    by eexists.
Defined.

Lemma refresh_resolved_lookup (fl : Faults) (roleId : Z) (db : Db)
    (cache cache' : gmap Z (list RawRule)) (role : Role.t)
    (ps : list Permission.t) :
  refreshRoleAbility fl roleId db cache = (cache', Resolved) →
  roles db !! roleId = Some role →
  Role.permissions role = Some ps →
  cache' = <[Role.id role := map rule_of_permission ps]> cache.
Proof.
  unfold refreshRoleAbility, initRolesAbilities, find.
  intros Hrun Hlook Hps. destruct (role_find_fails fl); [done|].
  rewrite Hlook in Hrun. simpl in Hrun. rewrite Hps in Hrun.
  by simplify_eq.
Qed.

(** X22.  Refreshing a role resolves when the roles can be read; it
    replaces the entry of that role by the rules the table has now and
    touches no other entry.  When the role is gone from the table its old
    rules stay in the cache. *)
Theorem refresh_replaces_one_entry
    (fl : Faults) (roleId : Z) (db : Db) (cache : gmap Z (list RawRule)) :
  role_find_fails fl = false →
  well_loaded db →
  ∃ cache',
    refreshRoleAbility fl roleId db cache = (cache', Resolved)
    ∧ cache' !! roleId
      = match roles db !! roleId with
        | Some role => map rule_of_permission <$> Role.permissions role
        | None => cache !! roleId
        end
    ∧ (∀ k, k ≠ roleId → cache' !! k = cache !! k).
Proof.
  intros Hfind Hwf. unfold refreshRoleAbility, initRolesAbilities, find.
  rewrite Hfind. destruct (roles db !! roleId) as [role|] eqn:Hlook; simpl.
  - destruct (Hwf roleId role Hlook) as [Hid [ps Hps]]. rewrite Hps, Hid.
    eexists. split; [reflexivity|]. split.
    + by rewrite lookup_insert_eq.
    + intros k Hk. by apply lookup_insert_ne.
  - by eexists.
Qed.

Lemma refresh_replaces_one_entry_witness :
  ∃ cache',
    refreshRoleAbility no_faults 7 db0 stale_cache = (cache', Resolved)
    ∧ cache' !! 7
      = match roles db0 !! 7 with
        | Some role => map rule_of_permission <$> Role.permissions role
        | None => stale_cache !! 7
        end
    ∧ (∀ k, k ≠ 7 → cache' !! k = stale_cache !! k).
Proof.
  apply (refresh_replaces_one_entry no_faults 7 db0 stale_cache).
  - reflexivity.
  - intros k role Hlook. unfold db0 in Hlook. simpl in Hlook.
    apply lookup_singleton_Some in Hlook as [<- <-]. split; [reflexivity|].
    by eexists.
Defined.

End RuleStoreFacts.

(** ** The bulk operations *)

Module BulkFacts.

Import Casl RuleStore RoleService PermissionManagementController.
Import CaslAbilityService Vocabulary MoreVocabulary Examples MoreExamples.

Lemma add_each_results (services_App : string) (fl : nat → Faults) (roleId : Z)
    (actor : option Account.t) (ip ua : option string)
    (permissions_ : list Permission.t) :
  ∀ i d d' results_,
    add_each services_App fl i roleId permissions_ actor ip ua d = (d', results_) →
    map added_permission results_ = permissions_.
Proof.
  induction permissions_ as [|p rest IH]; intros i d d' results_ Hrun;
    simpl in Hrun.
  - by simplify_eq.
  - destruct (addPermission (fl i) roleId p actor ip ua d) as [d1 r].
    destruct (add_each services_App fl (S i) roleId rest actor ip ua d1)
      as [d2 rs] eqn:Hrest.
    simplify_eq. simpl. rewrite (IH _ _ _ _ Hrest). by destruct r.
Qed.

Lemma remove_each_results (services_App : string) (fl : nat → Faults) (roleId : Z)
    (actor : option Account.t) (ip ua : option string)
    (permissionIds : list string) :
  ∀ i d d' results_,
    remove_each services_App fl i roleId permissionIds actor ip ua d = (d', results_) →
    map removed_permissionId results_ = permissionIds.
Proof.
  induction permissionIds as [|p rest IH]; intros i d d' results_ Hrun;
    simpl in Hrun.
  - by simplify_eq.
  - destruct (removePermission (fl i) roleId p actor ip ua d) as [d1 r].
    destruct (remove_each services_App fl (S i) roleId rest actor ip ua d1)
      as [d2 rs] eqn:Hrest.
    simplify_eq. simpl. rewrite (IH _ _ _ _ Hrest). by destruct r.
Qed.

Lemma filter_split {A} (f : A → bool) (l : list A) :
  (length (filter (λ x, f x = true) l)
   + length (filter (λ x, f x = false) l))%nat = length l.
Proof.
  induction l as [|x l IH]; [done|]. rewrite !filter_cons.
  destruct (f x) eqn:Hx; repeat case_decide; try done; simpl; lia.
Qed.

(** X23.  A bulk operation that returns reports every item it was
    given, in the order given, and its counts add up: [total] is the
    number of items and [successful + failed = total], whichever items
    failed. *)
Theorem bulk_reports_every_item
    (services_App : string) (fl : nat → Faults) (fl_refresh : Faults) (roleId : Z)
    (actor : option Account.t) (ip ua : option string) (app app' : App) :
  (∀ permissions_ resp,
     bulkAddPermissions services_App fl fl_refresh roleId permissions_ actor ip ua app
     = (app', inl resp) →
     response_roleId resp = roleId
     ∧ map added_permission (results resp) = permissions_
     ∧ total (summary resp) = length permissions_
     ∧ (successful (summary resp) + failed (summary resp))%nat
       = total (summary resp))
  ∧ (∀ permissionIds resp,
       bulkRemovePermissions services_App fl fl_refresh roleId permissionIds actor ip ua
         app
       = (app', inl resp) →
       response_roleId resp = roleId
       ∧ map removed_permissionId (results resp) = permissionIds
       ∧ total (summary resp) = length permissionIds
       ∧ (successful (summary resp) + failed (summary resp))%nat
         = total (summary resp)).
Proof.
  split.
  - intros permissions_ resp. unfold bulkAddPermissions.
    destruct (add_each services_App fl 0 roleId permissions_ actor ip ua (db app))
      as [d rs] eqn:Hrun.
    destruct (refreshRoleAbility fl_refresh roleId d (cache app))
      as [cache' [|msg]]; [|done].
    intros ?; simplify_eq. simpl.
    pose proof (add_each_results _ _ _ _ _ _ _ _ _ _ _ Hrun) as Hmap.
    repeat split; [done|].
    rewrite (filter_split added_success), <- Hmap. by rewrite length_map.
  - intros permissionIds resp. unfold bulkRemovePermissions.
    destruct (remove_each services_App fl 0 roleId permissionIds actor ip ua (db app))
      as [d rs] eqn:Hrun.
    destruct (refreshRoleAbility fl_refresh roleId d (cache app))
      as [cache' [|msg]]; [|done].
    intros ?; simplify_eq. simpl.
    pose proof (remove_each_results _ _ _ _ _ _ _ _ _ _ _ Hrun) as Hmap.
    repeat split; [done|].
    rewrite (filter_split removed_success), <- Hmap. by rewrite length_map.
Qed.

Lemma bulk_reports_every_item_witness :
  ∃ app' resp,
    bulkAddPermissions "app" (λ _, role_save_down) no_faults 1
      [update_company; update_company] (Some root) None None app0
    = (app', inl resp)
    ∧ response_roleId resp = 1
    ∧ map added_permission (results resp) = [update_company; update_company]
    ∧ total (summary resp) = 2%nat
    ∧ (successful (summary resp) + failed (summary resp))%nat
      = total (summary resp).
Proof.
  eexists _, _. split; [reflexivity|].
  refine (proj1 (bulk_reports_every_item "app" (λ _, role_save_down) no_faults 1
                   (Some root) None None app0 _)
            [update_company; update_company] _ _).
  reflexivity.
Defined.

(** X24.  After a bulk operation that returns, the cache agrees with
    the table on the role: its entry is the list of rules of the
    permissions the role has now. *)
Theorem bulk_cache_follows_table
    (services_App : string) (fl : nat → Faults) (fl_refresh : Faults) (roleId : Z)
    (actor : option Account.t) (ip ua : option string) (app app' : App)
    (role : Role.t) (ps : list Permission.t) :
  roles (db app') !! roleId = Some role →
  Role.permissions role = Some ps →
  (∀ permissions_ resp,
     bulkAddPermissions services_App fl fl_refresh roleId permissions_ actor ip ua app
     = (app', inl resp) →
     cache app' !! Role.id role = Some (map rule_of_permission ps))
  ∧ (∀ permissionIds resp,
       bulkRemovePermissions services_App fl fl_refresh roleId permissionIds actor ip ua
         app
       = (app', inl resp) →
       cache app' !! Role.id role = Some (map rule_of_permission ps)).
Proof.
  intros Hlook Hps. split.
  - intros permissions_ resp. unfold bulkAddPermissions.
    destruct (add_each services_App fl 0 roleId permissions_ actor ip ua (db app))
      as [d rs].
    destruct (refreshRoleAbility fl_refresh roleId d (cache app))
      as [cache' [|msg]] eqn:Hrefresh; [|done].
    intros ?; simplify_eq. simpl in *.
    rewrite (RuleStoreFacts.refresh_resolved_lookup _ _ _ _ _ role ps
               Hrefresh Hlook Hps).
    apply lookup_insert_eq.
  - intros permissionIds resp. unfold bulkRemovePermissions.
    destruct (remove_each services_App fl 0 roleId permissionIds actor ip ua (db app))
      as [d rs].
    destruct (refreshRoleAbility fl_refresh roleId d (cache app))
      as [cache' [|msg]] eqn:Hrefresh; [|done].
    intros ?; simplify_eq. simpl in *.
    rewrite (RuleStoreFacts.refresh_resolved_lookup _ _ _ _ _ role ps
               Hrefresh Hlook Hps).
    apply lookup_insert_eq.
Qed.

Lemma bulk_cache_follows_table_witness :
  ∃ app' resp,
    bulkAddPermissions "app" (λ _, no_faults) no_faults 1 [update_company]
      (Some root) None None app0
    = (app', inl resp)
    ∧ cache app' !! Role.id editor_after_add
      = Some (map rule_of_permission [read_company; update_company_saved]).
Proof.
  eexists _, _. split; [reflexivity|].
  refine (proj1 (bulk_cache_follows_table "app" (λ _, no_faults) no_faults 1
                   (Some root) None None app0 _ editor_after_add
                   [read_company; update_company_saved] _ _)
            [update_company] _ _); reflexivity.
Defined.

(** *** A bulk grant takes effect *)

Lemma add_ok (fl : Faults) (roleId : Z) (p : Permission.t)
    (actor : option Account.t) (ip ua : option string) (d : Db)
    (role : Role.t) (perms : list Permission.t) :
  faultless fl →
  roles d !! roleId = Some role →
  Role.id role = roleId →
  Role.permissions role = Some perms →
  ∃ d1 role1 saved,
    addPermission fl roleId p actor ip ua d = (d1, Ok role1)
    ∧ roles d1 !! roleId = Some role1
    ∧ Role.id role1 = roleId
    ∧ Role.permissions role1 = Some (perms ++ [saved])
    ∧ rule_of_permission saved = rule_of_permission p.
Proof.
  intros (Hfind & Hpsave & Hrsave & _ & Haudit) Hlook Hid Hperms.
  unfold addPermission, AuditLogService.logPermissionGrant,
    AuditLogService.logAction, try_catch_M, mbind, M_bind, mret, M_ret,
    throw, Repo.findRoleOrFail, Repo.savePermission, Repo.saveRole,
    Repo.saveAuditLog, create.
  rewrite Hfind, Hpsave, Hrsave, Hlook. simpl. rewrite Hid, Hperms.
  destruct actor as [a|]; simpl; [rewrite Haudit; simpl|];
    (eexists _, _, _; split; [reflexivity|]; simpl;
     split; [apply lookup_insert_eq|done]).
Qed.

Lemma add_each_ok (services_App : string) (fl : nat → Faults) (roleId : Z)
    (actor : option Account.t) (ip ua : option string)
    (permissions_ : list Permission.t) :
  (∀ i, faultless (fl i)) →
  ∀ i d role perms,
    roles d !! roleId = Some role →
    Role.id role = roleId →
    Role.permissions role = Some perms →
    ∃ d' results_ role' perms',
      add_each services_App fl i roleId permissions_ actor ip ua d = (d', results_)
      ∧ Forall (λ r, added_success r = true) results_
      ∧ roles d' !! roleId = Some role'
      ∧ Role.id role' = roleId
      ∧ Role.permissions role' = Some perms'
      ∧ map rule_of_permission perms'
        = map rule_of_permission perms ++ map rule_of_permission permissions_.
Proof.
  intros Hfl. induction permissions_ as [|p rest IH];
    intros i d role perms Hlook Hid Hperms; simpl.
  - exists d, [], role, perms. by rewrite app_nil_r.
  - destruct (add_ok (fl i) roleId p actor ip ua d role perms (Hfl i)
                Hlook Hid Hperms)
      as (d1 & role1 & saved & -> & Hlook1 & Hid1 & Hperms1 & Hsaved).
    destruct (IH (S i) d1 role1 (perms ++ [saved]) Hlook1 Hid1 Hperms1)
      as (d' & rs & role' & perms' & -> & Hall & Hlook' & Hid' & Hperms'
          & Hrules).
    eexists _, _, role', perms'. split; [reflexivity|].
    split; [by constructor|]. split; [done|]. split; [done|].
    split; [done|].
    rewrite Hrules, map_app, <- app_assoc. simpl. by rewrite Hsaved.
Qed.

Lemma filter_all {A} (f : A → bool) (l : list A) :
  Forall (λ x, f x = true) l →
  filter (λ x, f x = true) l = l ∧ filter (λ x, f x = false) l = [].
Proof.
  induction 1 as [|x l Hx _ [IH1 IH2]]; [done|]. rewrite !filter_cons.
  repeat case_decide; try congruence. by rewrite IH1, IH2.
Qed.

Lemma includes_elem (x : string) (l : list string) :
  x ∈ l → includes x l = true.
Proof.
  intros Hin. unfold includes. apply existsb_exists. exists x.
  split; [by apply list_elem_of_In|apply String.eqb_refl].
Qed.

(** X25.  A bulk grant takes effect at once: when no repository call
    fails and the rules of the role are grants on every field, every
    permission of the request is reported as added and, from then on, a
    user holding the role is allowed each action of each added permission
    on each of its subjects. *)
Theorem bulk_add_takes_effect
    (services_App : string) (fl : nat → Faults) (fl_refresh : Faults) (roleId : Z)
    (permissions_ : list Permission.t) (actor : option Account.t)
    (ip ua : option string) (app : App)
    (role : Role.t) (perms : list Permission.t)
    (user : Account.t) (held : Role.t) :
  (∀ i, faultless (fl i)) →
  role_find_fails fl_refresh = false →
  roles (db app) !! roleId = Some role →
  Role.id role = roleId →
  Role.permissions role = Some perms →
  Forall plain_grant (perms ++ permissions_) →
  Account.role user = Some held →
  Role.id held = roleId →
  ∃ app' resp,
    bulkAddPermissions services_App fl fl_refresh roleId permissions_ actor ip ua app
    = (app', inl resp)
    ∧ summary resp
      = {| total := length permissions_;
           successful := length permissions_;
           failed := 0 |}
    ∧ ∀ p action_ subject_ field,
        p ∈ permissions_ →
        action_ ∈ to_array (Permission.action p) →
        subject_ ∈ to_array (Permission.subject p) →
        checkUserAbility (cache app') user action_ (SType subject_) field
        = Ok true.
Proof.
  intros Hfl Hrefresh Hlook Hid Hperms Hgrants Hheld Hheld_id.
  destruct (add_each_ok services_App fl roleId actor ip ua permissions_ Hfl 0%nat
              (db app) role perms Hlook Hid Hperms)
    as (d & rs & role' & perms' & Hrun & Hall & Hlook' & Hid' & Hperms'
        & Hrules).
  unfold bulkAddPermissions. rewrite Hrun.
  unfold refreshRoleAbility, initRolesAbilities, find.
  rewrite Hrefresh, Hlook'. simpl. rewrite Hperms'.
  eexists _, _. split; [reflexivity|]. simpl. split.
  - destruct (filter_all added_success rs Hall) as [-> ->].
    pose proof (add_each_results _ _ _ _ _ _ _ _ _ _ _ Hrun) as Hmap.
    by rewrite <- Hmap, length_map.
  - intros p action_ subject_ field Hp Haction Hsubject.
    assert (Role.id role' = Role.id held) as Hsame by congruence.
    rewrite (AbilityMoreFacts.named_check _ user held
               (map rule_of_permission perms') action_ subject_ field
               Hheld).
    + f_equal. rewrite Hrules, existsb_app. apply orb_true_iff. right.
      apply existsb_exists. exists (rule_of_permission p). split.
      * apply in_map. by apply list_elem_of_In.
      * unfold concerns. simpl.
        by rewrite (includes_elem subject_), (includes_elem action_).
    + rewrite <- Hsame. apply lookup_insert_eq.
    + rewrite Hrules, <- map_app. apply Forall_forall. intros r Hin.
      apply list_elem_of_In, in_map_iff in Hin as (q & <- & Hin).
      apply list_elem_of_In in Hin. rewrite Forall_forall in Hgrants.
      by apply Hgrants.
Qed.

Lemma bulk_add_takes_effect_witness :
  ∃ app' resp,
    bulkAddPermissions "app" (λ _, no_faults) no_faults 1 [update_company]
      None None None app0
    = (app', inl resp)
    ∧ summary resp
      = {| total := length [update_company];
           successful := length [update_company];
           failed := 0 |}
    ∧ ∀ p action_ subject_ field,
        p ∈ [update_company] →
        action_ ∈ to_array (Permission.action p) →
        subject_ ∈ to_array (Permission.subject p) →
        checkUserAbility (cache app') editor_account action_
          (SType subject_) field
        = Ok true.
Proof.
  apply (bulk_add_takes_effect "app" (λ _, no_faults) no_faults 1 [update_company]
           None None None app0 editor [read_company] editor_account editor).
  - intros _. repeat split.
  - reflexivity.
  - reflexivity.
  - reflexivity.
  - reflexivity.
  - repeat constructor.
  - reflexivity.
  - reflexivity.
Defined.

End BulkFacts.

(** ** The isolation helpers *)

Module HelperFacts.

Import ConditionResolverService ConditionHelpers Vocabulary MoreExamples.

Lemma walk_one (user v : value) (key : string) :
  Js.get user key = Ok v → walk [key] user = Ok v.
Proof.
  intros Hget. simpl. rewrite Hget. by destruct user.
Qed.

(** X26.  The isolation helpers against the templates they stand for.
    [buildOwnerIsolation] builds what the template [${user.id}] resolves
    to under the same key.  [buildCompanyIsolation] builds what the
    template [${user.companyId}] resolves to only when the company
    identifier is truthy: for a user without a company, or of company 0,
    the template still yields a condition on [companyId] while the helper
    yields no conditions at all. *)
Theorem isolation_helpers_and_templates (user : value) :
  (∀ v,
     Js.get user "companyId" = Ok v →
     resolveConditions (Some companyId_template) user
     = Ok (Some [("companyId", Data v)])
     ∧ buildCompanyIsolation user
       = Ok (if truthy v then Some [("companyId", Data v)] else None))
  ∧ (∀ v ownerField,
       Js.get user "id" = Ok v →
       Some <$> buildOwnerIsolation user ownerField
       = resolveConditions
           (Some [(default "accountId" ownerField,
                   Data (VStr "${user.id}"))]) user).
Proof.
  split.
  - intros v Hget. split.
    + unfold resolveConditions, resolveRecord, companyId_template. simpl.
      change (resolveString "${user.companyId}" user)
        with (walk ["companyId"] user).
      by rewrite (walk_one user v "companyId" Hget).
    + unfold buildCompanyIsolation. rewrite Hget. simpl.
      by destruct (truthy v).
  - intros v ownerField Hget. unfold buildOwnerIsolation.
    unfold resolveConditions, resolveRecord. simpl.
    change (resolveString "${user.id}" user) with (walk ["id"] user).
    by rewrite (walk_one user v "id" Hget), Hget.
Qed.

Lemma isolation_helpers_and_templates_witness :
  (resolveConditions (Some companyId_template) company_zero
   = Ok (Some [("companyId", Data (VNum 0))])
   ∧ buildCompanyIsolation company_zero
     = Ok (if truthy (VNum 0) then Some [("companyId", Data (VNum 0))]
           else None))
  ∧ Some <$> buildOwnerIsolation company_zero None
    = resolveConditions
        (Some [(default "accountId" None, Data (VStr "${user.id}"))])
        company_zero.
Proof.
  split.
  - apply (proj1 (isolation_helpers_and_templates company_zero) (VNum 0)).
    reflexivity.
  - apply (proj2 (isolation_helpers_and_templates company_zero) (VNum 32)
             None).
    reflexivity.
Defined.

End HelperFacts.
